(** * jedi/api/environment.py: discovery and probing of Python environments

    A shallow embedding of [jedi.api.environment] and the properties of its
    version probe, directory validation, discovery generators and
    execution-channel selection.

    Python values are modelled as follows: [int] is [Z], [str] is [string],
    [bytes] is [list byte], objects live in a heap indexed by their identity,
    and the operating system (process spawning, the file system, the
    executable search path, the [sys] module) is an explicit [Host] record.
    Every call that reaches the operating system is recorded in a trace. *)

From Stdlib Require Import ZArith Lia Bool Strings.Ascii Strings.String Strings.Byte.
From stdpp Require Import base list strings.

Local Open Scope string_scope.
Local Open Scope list_scope.
Local Open Scope Z_scope.

(** ** Bytes, decimal digits and [int()] *)

Abbreviation bytes := (list byte).

(** The bytes of an ASCII string literal, as in a Python [b'...'] literal. *)
Definition b (s : string) : bytes := list_byte_of_string s.

(** [\d] of a bytes pattern: the ASCII digits [0-9] only. *)
Definition is_digit (c : byte) : bool :=
  (48 <=? Byte.to_N c)%N && (Byte.to_N c <=? 57)%N.

Definition digit_value (c : byte) : Z := Z.of_N (Byte.to_N c) - 48.

Definition int_step (acc : Z) (c : byte) : Z := 10 * acc + digit_value c.

(** [int(m)] for a bytes object made of decimal digits. *)
Definition int_of_bytes (s : bytes) : Z := fold_left int_step s 0.

Definition digit_byte (d : Z) : byte :=
  match Byte.of_N (Z.to_N (48 + d)) with
  | Some c => c
  | None => x30
  end.

Fixpoint dec_digits_aux (fuel : nat) (n : Z) (acc : bytes) : bytes :=
  let acc' := digit_byte (n mod 10) :: acc in
  match fuel with
  | O => acc'
  | S fuel' => if n <? 10 then acc' else dec_digits_aux fuel' (n / 10) acc'
  end.

(** The decimal representation of a non-negative [int], as [str(n)] prints
    it: no sign, no leading zero. *)
Definition dec_bytes (n : Z) : bytes :=
  dec_digits_aux (Z.to_nat (Z.log2 n)) n [].

(** [str(n)], as used by ['%s' % n]. *)
Definition str_of_int (n : Z) : string :=
  if n <? 0 then "-" +:+ string_of_list_byte (dec_bytes (- n))
  else string_of_list_byte (dec_bytes n).

(** ** The fragment of [re] used by the version pattern

    A pattern is a sequence of literal bytes and capturing groups [(\d+)].
    [\d+] is greedy: it first takes the longest run of digits and gives
    digits back one at a time while the rest of the pattern fails. *)

Inductive re_item : Type :=
  | RLit (c : byte)
  | RDigits.

Fixpoint digit_run (s : bytes) : nat :=
  match s with
  | c :: s' => if is_digit c then S (digit_run s') else O
  | [] => O
  end.

Fixpoint first_success {A : Type} (k : nat) (try : nat -> option A) : option A :=
  match k with
  | O => None
  | S k' =>
      match try k with
      | Some r => Some r
      | None => first_success k' try
      end
  end.

(** [re.match(pattern, s)]: anchored at the start of [s], anything may follow
    the match.  The result is [match.groups()]. *)
Fixpoint re_match (p : list re_item) (s : bytes) : option (list bytes) :=
  match p with
  | [] => Some []
  | RLit c :: p' =>
      match s with
      | x :: s' => if Byte.eqb x c then re_match p' s' else None
      | [] => None
      end
  | RDigits :: p' =>
      first_success (digit_run s)
        (fun k => option_map (cons (take k s)) (re_match p' (drop k s)))
  end.

(** [br'Python (\d+)\.(\d+)\.(\d+)'] *)
Definition version_pattern : list re_item :=
  map RLit (b "Python ") ++
  [RDigits; RLit (Byte.x2e); RDigits; RLit (Byte.x2e); RDigits].

(** ** [posixpath.join] and [posixpath.dirname] *)

Definition is_sep (c : ascii) : bool := Ascii.eqb c "/"%char.

Definition startswith_sep (s : string) : bool :=
  match s with
  | String c _ => is_sep c
  | EmptyString => false
  end.

Fixpoint endswith_sep (s : string) : bool :=
  match s with
  | EmptyString => false
  | String c EmptyString => is_sep c
  | String _ s' => endswith_sep s'
  end.

Definition is_empty (s : string) : bool :=
  match s with
  | EmptyString => true
  | String _ _ => false
  end.

(** [os.path.join(a, p)] with one component [p]. *)
Definition path_join (a p : string) : string :=
  if startswith_sep p then p
  else if is_empty a || endswith_sep a then a +:+ p
  else a +:+ "/" +:+ p.

Fixpoint has_sep (s : string) : bool :=
  match s with
  | EmptyString => false
  | String c s' => is_sep c || has_sep s'
  end.

(** [p[:p.rfind('/') + 1]] *)
Fixpoint head_of (p : string) : string :=
  match p with
  | EmptyString => EmptyString
  | String c p' => if has_sep p then String c (head_of p') else EmptyString
  end.

Fixpoint all_sep (s : string) : bool :=
  match s with
  | EmptyString => true
  | String c s' => is_sep c && all_sep s'
  end.

(** [head.rstrip('/')] *)
Fixpoint rstrip_sep (s : string) : string :=
  match s with
  | EmptyString => EmptyString
  | String c s' =>
      let r := rstrip_sep s' in
      if is_sep c && is_empty r then EmptyString else String c r
  end.

(** [os.path.dirname(p)] *)
Definition dirname (p : string) : string :=
  let head := head_of p in
  if negb (is_empty head) && negb (all_sep head) then rstrip_sep head
  else head.

(** ** Values, exceptions and the host *)

(** [_VersionInfo = namedtuple('VersionInfo', 'major minor micro')] *)
Record _VersionInfo : Type := VersionInfo {
  major : Z;
  minor : Z;
  micro : Z
}.

Inductive Exn : Type :=
  | InvalidPythonEnvironment (msg : option string)
  | OtherException (name : string).

Inductive Result (A : Type) : Type :=
  | Ok (a : A)
  | Raise (e : Exn).
Arguments Ok {A} a.
Arguments Raise {A} e.

(** What [process.communicate()] and [process.poll()] give for a child that
    was started. *)
Record Completed : Type := {
  stdout : bytes;
  stderr : bytes;
  retcode : Z
}.

(** The world outside the module.  [popen argv] is [None] when starting the
    child raises [OSError].  [worker_sys_path exe] is the answer of the worker
    subprocess of [jedi.evaluate.compiled.subprocess] bound to [exe]. *)
Record Host : Type := {
  sys_version_info : _VersionInfo;
  sys_prefix : string;
  sys_executable : string;
  sys_path : list string;
  popen : list string -> option Completed;
  os_path_exists : string -> bool;
  find_executable : string -> option string;
  worker_sys_path : string -> Result (list string)
}.

Inductive Event : Type :=
  | EvPopen (argv : list string)
  | EvWorkerSysPath (executable : string).

(** ** Objects and the heap *)

Inductive PyClass : Type :=
  | ClsEnvironment
  | ClsInterpreterEnvironment.

(** The cell in which a memoised method keeps what it computed. *)
Inductive Memo (A : Type) : Type :=
  | Unset
  | Value (v : A)
  | Failed (e : Exn).
Arguments Unset {A}.
Arguments Value {A} v.
Arguments Failed {A} e.

(** An instance: its class and its attributes, [None] while an attribute has
    not been assigned. *)
Record Obj : Type := {
  cls : PyClass;
  _base_path : option string;
  _executable : option string;
  version_info : option _VersionInfo;
  memo_get_sys_path : Memo (list string)
}.

Abbreviation Loc := nat.

Record State : Type := {
  heap : list Obj;
  trace : list Event
}.

Definition empty_state : State := {| heap := []; trace := [] |}.

(** ** Computations: state passing with exceptions *)

Definition M (A : Type) : Type := State -> Result A * State.

Definition ret {A : Type} (a : A) : M A := fun st => (Ok a, st).

Definition raise {A : Type} (e : Exn) : M A := fun st => (Raise e, st).

Definition bind {A B : Type} (c : M A) (k : A -> M B) : M B :=
  fun st =>
    match c st with
    | (Ok a, st') => k a st'
    | (Raise e, st') => (Raise e, st')
    end.

Declare Scope py_scope.
Delimit Scope py_scope with py.
Notation "x <- c ;; k" := (bind c (fun x => k))
  (at level 100, c at next level, right associativity) : py_scope.
Notation "c ;;; k" := (bind c (fun _ => k))
  (at level 100, right associativity) : py_scope.
Local Open Scope py_scope.

Definition log (e : Event) : M unit :=
  fun st => (Ok tt, {| heap := heap st; trace := trace st ++ [e] |}).

Definition new (c : PyClass) : M Loc :=
  fun st =>
    (Ok (length (heap st)),
     {| heap := heap st ++ [{| cls := c; _base_path := None; _executable := None;
                               version_info := None; memo_get_sys_path := Unset |}];
        trace := trace st |}).

Definition deref (self : Loc) : M Obj :=
  fun st =>
    match heap st !! self with
    | Some o => (Ok o, st)
    | None => (Raise (OtherException "ReferenceError"), st)
    end.

Definition update (self : Loc) (f : Obj -> Obj) : M unit :=
  fun st =>
    match heap st !! self with
    | Some o => (Ok tt, {| heap := <[self := f o]> (heap st); trace := trace st |})
    | None => (Raise (OtherException "ReferenceError"), st)
    end.

Definition set_base_path (v : string) (o : Obj) : Obj :=
  {| cls := cls o; _base_path := Some v; _executable := _executable o;
     version_info := version_info o; memo_get_sys_path := memo_get_sys_path o |}.

Definition set_executable (v : string) (o : Obj) : Obj :=
  {| cls := cls o; _base_path := _base_path o; _executable := Some v;
     version_info := version_info o; memo_get_sys_path := memo_get_sys_path o |}.

Definition set_version_info (v : _VersionInfo) (o : Obj) : Obj :=
  {| cls := cls o; _base_path := _base_path o; _executable := _executable o;
     version_info := Some v; memo_get_sys_path := memo_get_sys_path o |}.

Definition set_memo (m : Memo (list string)) (o : Obj) : Obj :=
  {| cls := cls o; _base_path := _base_path o; _executable := _executable o;
     version_info := version_info o; memo_get_sys_path := m |}.

(** Reading an attribute; an attribute that was never assigned raises
    [AttributeError]. *)
Definition getattr {A : Type} (field : Obj -> option A) (self : Loc) : M A :=
  o <- deref self;;
  match field o with
  | Some v => ret v
  | None => raise (OtherException "AttributeError")
  end.

(** ** The module [jedi.api.environment] *)

Definition _SUPPORTED_PYTHONS : list string := ["2.7"; "3.3"; "3.4"; "3.5"; "3.6"].

(** A handle on the worker subprocess bound to an executable, what
    [get_subprocess(executable)] returns. *)
Record CompiledSubprocess : Type := { sub_executable : string }.

(** An evaluator is opaque here; it is only passed on. *)
Abbreviation Evaluator := nat.

Inductive Channel : Type :=
  | EvaluatorSameProcess (evaluator : Evaluator)
  | EvaluatorSubprocess (evaluator : Evaluator) (sub : CompiledSubprocess).

(** What a generator gives when it is run to its end: the values it yielded,
    in order, and the exception that ended it, if one did. *)
Record Drained : Type := {
  yielded : list Loc;
  raised : option Exn
}.

Definition push (env : Loc) (r : Drained * State) : Drained * State :=
  ({| yielded := env :: yielded (fst r); raised := raised (fst r) |}, snd r).

Section Module_environment.

Variable host : Host.

(** [_get_version(executable)] *)
Definition _get_version (executable : string) : M _VersionInfo :=
  log (EvPopen [executable; "--version"]);;;
  match popen host [executable; "--version"] with
  | None => raise (InvalidPythonEnvironment None)
  | Some process =>
      if negb (retcode process =? 0) then raise (InvalidPythonEnvironment None)
      else
        let output := (stdout process ++ stderr process) in
        match re_match version_pattern output with
        | None => raise (InvalidPythonEnvironment None)
        | Some [m1; m2; m3] =>
            ret (VersionInfo (int_of_bytes m1) (int_of_bytes m2) (int_of_bytes m3))
        | Some _ => raise (OtherException "TypeError")
        end
  end.

(** [_get_executable_path(path)] *)
Definition _get_executable_path (path : string) : M string :=
  let bin_folder := path_join path "bin" in
  let activate := path_join bin_folder "activate" in
  let python := path_join bin_folder "python" in
  if negb (forallb (os_path_exists host) [activate; python])
  then raise (InvalidPythonEnvironment
                (Some "One of bin/activate and bin/python is missing."))
  else ret python.

(** [Environment.__init__(self, path, executable)] *)
Definition Environment__init__ (self : Loc) (path executable : string) : M unit :=
  update self (set_base_path path);;;
  update self (set_executable executable);;;
  exe <- getattr _executable self;;
  v <- _get_version exe;;
  update self (set_version_info v).

(** [Environment(path, executable)] *)
Definition Environment (path executable : string) : M Loc :=
  self <- new ClsEnvironment;;
  Environment__init__ self path executable;;;
  ret self.

(** [InterpreterEnvironment.__init__(self)] *)
Definition InterpreterEnvironment__init__ (self : Loc) : M unit :=
  let v := sys_version_info host in
  update self (set_version_info (VersionInfo (major v) (minor v) (micro v))).

(** [InterpreterEnvironment()] *)
Definition InterpreterEnvironment : M Loc :=
  self <- new ClsInterpreterEnvironment;;
  InterpreterEnvironment__init__ self;;;
  ret self.

(** Modelled from the spec: [get_subprocess] of
    [jedi.evaluate.compiled.subprocess], the worker process matching the
    environment's executable; obtaining the handle starts nothing. *)
Definition get_subprocess (executable : string) : M CompiledSubprocess :=
  ret {| sub_executable := executable |}.

(** [Environment._get_subprocess(self)] *)
Definition _get_subprocess (self : Loc) : M CompiledSubprocess :=
  exe <- getattr _executable self;;
  get_subprocess exe.

(** Modelled from the spec: the worker's [get_sys_path()], which has the
    target executable report its resolved path list; one query of the
    subprocess per call. *)
Definition subprocess_get_sys_path (sub : CompiledSubprocess) : M (list string) :=
  log (EvWorkerSysPath (sub_executable sub));;;
  match worker_sys_path host (sub_executable sub) with
  | Ok v => ret v
  | Raise e => raise e
  end.

(** Modelled from the spec: [memoize_method] of [jedi.cache], for a method
    without arguments.  The cell of the instance goes from unset to set once:
    the first call runs the method and keeps its outcome, every later call is
    a read of the cell. *)
Definition memoize_method (method : Loc -> M (list string)) (self : Loc) : M (list string) :=
  o <- deref self;;
  match memo_get_sys_path o with
  | Value v => ret v
  | Failed e => raise e
  | Unset =>
      fun st =>
        match method self st with
        | (Ok v, st') =>
            (update self (set_memo (Value v));;; ret v) st'
        | (Raise e, st') =>
            (update self (set_memo (Failed e));;; raise e) st'
        end
  end.

(** The body of [Environment.get_sys_path]. *)
Definition Environment_get_sys_path_body (self : Loc) : M (list string) :=
  sub <- _get_subprocess self;;
  subprocess_get_sys_path sub.

(** [Environment.get_sys_path], decorated with [memoize_method]. *)
Definition Environment_get_sys_path : Loc -> M (list string) :=
  memoize_method Environment_get_sys_path_body.

(** [InterpreterEnvironment.get_sys_path(self)] *)
Definition InterpreterEnvironment_get_sys_path (self : Loc) : M (list string) :=
  ret (sys_path host).

(** [env.get_sys_path()], dispatched on the class of [env]. *)
Definition get_sys_path (self : Loc) : M (list string) :=
  o <- deref self;;
  match cls o with
  | ClsEnvironment => Environment_get_sys_path self
  | ClsInterpreterEnvironment => InterpreterEnvironment_get_sys_path self
  end.

(** [Environment.get_evaluator_subprocess(self, evaluator)] *)
Definition Environment_get_evaluator_subprocess (self : Loc) (evaluator : Evaluator) : M Channel :=
  sub <- _get_subprocess self;;
  ret (EvaluatorSubprocess evaluator sub).

(** [InterpreterEnvironment.get_evaluator_subprocess(self, evaluator)] *)
Definition InterpreterEnvironment_get_evaluator_subprocess (self : Loc) (evaluator : Evaluator) : M Channel :=
  ret (EvaluatorSameProcess evaluator).

(** [env.get_evaluator_subprocess(evaluator)], dispatched on the class. *)
Definition get_evaluator_subprocess (self : Loc) (evaluator : Evaluator) : M Channel :=
  o <- deref self;;
  match cls o with
  | ClsEnvironment => Environment_get_evaluator_subprocess self evaluator
  | ClsInterpreterEnvironment => InterpreterEnvironment_get_evaluator_subprocess self evaluator
  end.

(** [env.version_info] *)
Definition get_version_info (self : Loc) : M _VersionInfo :=
  getattr version_info self.

(** [get_default_environment()] *)
Definition get_default_environment : M Loc :=
  Environment (sys_prefix host) (sys_executable host).

(** [get_python_environment(python_name)] *)
Definition get_python_environment (python_name : string) : M Loc :=
  match find_executable host python_name with
  | None => raise (InvalidPythonEnvironment (Some "This executable doesn't exist."))
  | Some exe =>
      let path := dirname (dirname exe) in
      Environment path exe
  end.

(** [create_environment(path)] *)
Definition create_environment (path : string) : M Loc :=
  executable <- _get_executable_path path;;
  Environment path executable.

(** The loop of [find_virtualenvs], run to the end of [paths]. *)
Fixpoint find_virtualenvs_loop (paths : list string) (st : State) : Drained * State :=
  match paths with
  | [] => ({| yielded := []; raised := None |}, st)
  | path :: rest =>
      match (executable <- _get_executable_path path;;
             Environment path executable) st with
      | (Ok env, st') => push env (find_virtualenvs_loop rest st')
      | (Raise (InvalidPythonEnvironment _), st') => find_virtualenvs_loop rest st'
      | (Raise e, st') => ({| yielded := []; raised := Some e |}, st')
      end
  end.

(** [find_virtualenvs(paths=None)] *)
Definition find_virtualenvs (paths : option (list string)) (st : State) : Drained * State :=
  let paths := match paths with None => [] | Some ps => ps end in
  find_virtualenvs_loop paths st.

(** The loop of [find_python_environments], run to the end of the tags. *)
Fixpoint find_python_environments_loop (current_version : string)
    (tags : list string) (st : State) : Drained * State :=
  match tags with
  | [] => ({| yielded := []; raised := None |}, st)
  | version_string :: rest =>
      if String.eqb version_string current_version then
        match get_default_environment st with
        | (Ok env, st') =>
            push env (find_python_environments_loop current_version rest st')
        | (Raise e, st') => ({| yielded := []; raised := Some e |}, st')
        end
      else
        match get_python_environment ("python" +:+ version_string) st with
        | (Ok env, st') =>
            push env (find_python_environments_loop current_version rest st')
        | (Raise (InvalidPythonEnvironment _), st') =>
            find_python_environments_loop current_version rest st'
        | (Raise e, st') => ({| yielded := []; raised := Some e |}, st')
        end
  end.

(** [find_python_environments()] *)
Definition find_python_environments (st : State) : Drained * State :=
  let current_version :=
    str_of_int (major (sys_version_info host)) +:+ "." +:+
    str_of_int (minor (sys_version_info host)) in
  find_python_environments_loop current_version _SUPPORTED_PYTHONS st.

End Module_environment.

(** [Environment.__repr__(self)]: ['<%s: %s>' % (self.__class__.__name__,
    self._base_path)], for an instance of the class [Environment]. *)
Definition Environment__repr__ (self : Loc) : M string :=
  base_path <- getattr _base_path self;;
  ret ("<" +:+ "Environment" +:+ ": " +:+ base_path +:+ ">").

(** ** Vocabulary of the statements *)

(** The outcome of the version probe on [executable]; it depends on the host
    only, not on the heap. *)
Definition probe (host : Host) (executable : string) : Result _VersionInfo :=
  fst (_get_version host executable empty_state).

(** An [Environment] instance as [__init__] leaves it. *)
Definition env_obj (path executable : string) (v : option _VersionInfo) : Obj :=
  {| cls := ClsEnvironment; _base_path := Some path; _executable := Some executable;
     version_info := v; memo_get_sys_path := Unset |}.

(** An [InterpreterEnvironment] instance as [__init__] leaves it. *)
Definition interp_obj (v : _VersionInfo) : Obj :=
  {| cls := ClsInterpreterEnvironment; _base_path := None; _executable := None;
     version_info := Some v; memo_get_sys_path := Unset |}.

Definition version_event (executable : string) : Event :=
  EvPopen [executable; "--version"].

Definition is_popen (e : Event) : bool :=
  match e with
  | EvPopen _ => true
  | EvWorkerSysPath _ => false
  end.

(** The instance at [l] holds a version triple of non-negative integers. *)
Definition has_version (st : State) (l : Loc) : Prop :=
  exists o v, heap st !! l = Some o /\ version_info o = Some v /\
              0 <= major v /\ 0 <= minor v /\ 0 <= micro v.

Definition is_invalid_environment (e : Exn) : Prop :=
  exists msg, e = InvalidPythonEnvironment msg.

(** The outcome of a constructor call: either a reference to an instance that
    holds a version, or [InvalidPythonEnvironment]. *)
Definition builds_versioned (r : Result Loc * State) : Prop :=
  match fst r with
  | Ok l => has_version (snd r) l
  | Raise e => is_invalid_environment e
  end.

(** The reference [l] denotes the instance [o]. *)
Definition points_to (st : State) (l : Loc) (o : Obj) : Prop :=
  heap st !! l = Some o.

(** Synthetic probe output: [Python <major>.<minor>.<micro>] followed by
    [rest]. *)
Definition version_output (mj mn mc : Z) (rest : bytes) : bytes :=
  (b "Python " ++ dec_bytes mj ++ [x2e] ++ dec_bytes mn ++ [x2e] ++ dec_bytes mc ++ rest).

(** What follows the version does not go on with a digit, so that the micro
    number ends where the triple ends. *)
Definition no_leading_digit (s : bytes) : bool :=
  match s with
  | c :: _ => negb (is_digit c)
  | [] => true
  end.

(** The number of capturing groups of a pattern. *)
Fixpoint count_groups (p : list re_item) : nat :=
  match p with
  | [] => O
  | RLit _ :: p' => count_groups p'
  | RDigits :: p' => S (count_groups p')
  end.

(** A captured [\d+]: one digit or more, digits only. *)
Definition is_number (g : bytes) : Prop := g <> [] /\ forallb is_digit g = true.

Definition bin_activate (path : string) : string :=
  path_join (path_join path "bin") "activate".

Definition bin_python (path : string) : string :=
  path_join (path_join path "bin") "python".

(** The directories of [paths] that are valid candidates, in input order,
    each with the instance discovery builds for it: both files exist and the
    probe of [bin/python] gives a version. *)
Fixpoint valid_virtualenvs (host : Host) (paths : list string) : list Obj :=
  match paths with
  | [] => []
  | path :: rest =>
      if os_path_exists host (bin_activate path) && os_path_exists host (bin_python path) then
        match probe host (bin_python path) with
        | Ok v => env_obj path (bin_python path) (Some v) :: valid_virtualenvs host rest
        | Raise _ => valid_virtualenvs host rest
        end
      else valid_virtualenvs host rest
  end.

(** The enumeration by version tag, as a list: the instances expected in
    order, the exception that ends the enumeration if the probe of the default
    environment fails, and the commands spawned on the way. *)
Record Enumeration : Type := {
  enum_envs : list Obj;
  enum_raised : option Exn;
  enum_spawned : list Event
}.

Definition enum_cons (o : option Obj) (ev : list Event) (r : Enumeration) : Enumeration :=
  {| enum_envs := match o with Some x => x :: enum_envs r | None => enum_envs r end;
     enum_raised := enum_raised r;
     enum_spawned := (ev ++ enum_spawned r) |}.

Fixpoint enumerate_tags (host : Host) (current_version : string) (tags : list string) : Enumeration :=
  match tags with
  | [] => {| enum_envs := []; enum_raised := None; enum_spawned := [] |}
  | tag :: rest =>
      if String.eqb tag current_version then
        match probe host (sys_executable host) with
        | Ok v =>
            enum_cons (Some (env_obj (sys_prefix host) (sys_executable host) (Some v)))
              [version_event (sys_executable host)]
              (enumerate_tags host current_version rest)
        | Raise e =>
            {| enum_envs := []; enum_raised := Some e;
               enum_spawned := [version_event (sys_executable host)] |}
        end
      else
        match find_executable host ("python" +:+ tag) with
        | None => enumerate_tags host current_version rest
        | Some exe =>
            match probe host exe with
            | Ok v =>
                enum_cons (Some (env_obj (dirname (dirname exe)) exe (Some v)))
                  [version_event exe] (enumerate_tags host current_version rest)
            | Raise _ =>
                enum_cons None [version_event exe] (enumerate_tags host current_version rest)
            end
        end
  end.

Definition current_tag (host : Host) : string :=
  str_of_int (major (sys_version_info host)) +:+ "." +:+
  str_of_int (minor (sys_version_info host)).

(** Reads of the two lazily described fields of an instance. *)
Inductive Access : Type :=
  | ReadVersion
  | ReadSysPath.

Inductive Observed : Type :=
  | ObsVersion (r : Result _VersionInfo)
  | ObsSysPath (r : Result (list string)).

Definition access (host : Host) (self : Loc) (a : Access) (st : State) : Observed * State :=
  match a with
  | ReadVersion =>
      let r := get_version_info self st in (ObsVersion (fst r), snd r)
  | ReadSysPath =>
      let r := get_sys_path host self st in (ObsSysPath (fst r), snd r)
  end.

Fixpoint accesses (host : Host) (self : Loc) (l : list Access) (st : State) : list Observed * State :=
  match l with
  | [] => ([], st)
  | a :: l' =>
      let r := access host self a st in
      let r' := accesses host self l' (snd r) in
      (fst r :: fst r', snd r')
  end.

(** What a single access observes in the state [st]. *)
Definition obs_at (host : Host) (self : Loc) (st : State) (a : Access) : Observed :=
  fst (access host self a st).

(** The path of the instance has been asked for already, or needs no asking:
    asking again changes nothing. *)
Definition settled (host : Host) (self : Loc) (st : State) : Prop :=
  snd (get_sys_path host self st) = st.

(** The test of [_get_executable_path]: both files are there. *)
Definition dir_ok (host : Host) (path : string) : bool :=
  os_path_exists host (bin_activate path) && os_path_exists host (bin_python path).

(** The interpreters [find_virtualenvs] probes for [paths]: one for each
    directory that has both files, in input order. *)
Fixpoint probed_interpreters (host : Host) (paths : list string) : list string :=
  match paths with
  | [] => []
  | path :: rest =>
      if dir_ok host path then bin_python path :: probed_interpreters host rest
      else probed_interpreters host rest
  end.

(** ['%s.%s' % (major, minor)], the version string of [get_grammar] and of
    [find_python_environments]. *)
Definition version_string (mj mn : Z) : string :=
  str_of_int mj +:+ "." +:+ str_of_int mn.

(** [a] is the beginning of [s]. *)
Definition starts_with (a s : string) : Prop := exists t, s = a +:+ t.

(** ** A concrete host

    Python 3.6.5 runs the tool; [python2.7] is on the search path and prints
    its version on stderr; [python3.5] is on the search path but broken;
    [/home/u/venv] is a virtualenv, [/home/u/half] lacks [bin/python]. *)

Definition nl : bytes := [x0a].

Definition demo_popen (argv : list string) : option Completed :=
  match argv with
  | [exe; "--version"] =>
      if String.eqb exe "/usr/bin/python3.6" then
        Some {| stdout := (b "Python 3.6.5" ++ nl); stderr := []; retcode := 0 |}
      else if String.eqb exe "/usr/bin/python2.7" then
        Some {| stdout := []; stderr := (b "Python 2.7.15" ++ nl); retcode := 0 |}
      else if String.eqb exe "/home/u/venv/bin/python" then
        Some {| stdout := []; stderr := (b "Python 3.6.5" ++ nl); retcode := 0 |}
      else if String.eqb exe "/opt/py35/bin/python3.5" then
        Some {| stdout := []; stderr := b "Segmentation fault"; retcode := -11 |}
      else None
  | _ => None
  end.

Definition demo_exists (p : string) : bool :=
  String.eqb p "/home/u/venv/bin/activate" ||
  String.eqb p "/home/u/venv/bin/python" ||
  String.eqb p "/home/u/half/bin/activate".

Definition demo_find_executable (name : string) : option string :=
  if String.eqb name "python2.7" then Some "/usr/bin/python2.7"
  else if String.eqb name "python3.5" then Some "/opt/py35/bin/python3.5"
  else None.

Definition demo_host : Host :=
  {| sys_version_info := VersionInfo 3 6 5;
     sys_prefix := "/usr";
     sys_executable := "/usr/bin/python3.6";
     sys_path := ["/usr/lib/python3.6"];
     popen := demo_popen;
     os_path_exists := demo_exists;
     find_executable := demo_find_executable;
     worker_sys_path := fun exe => Ok ["/usr/lib/python36.zip"; "/usr/lib/python3.6"] |}.

(** A host whose own interpreter, a Python 3.5, does not run. *)
Definition broken_host : Host :=
  {| sys_version_info := VersionInfo 3 5 2;
     sys_prefix := "/opt/py35";
     sys_executable := "/opt/py35/bin/python3.5";
     sys_path := [];
     popen := demo_popen;
     os_path_exists := demo_exists;
     find_executable := demo_find_executable;
     worker_sys_path := fun exe => Raise (OtherException "InternalError") |}.

(** * Properties *)

(** ** Examples *)

Example re_match_365 :
  re_match version_pattern (b "Python 3.6.5" ++ nl) = Some [b "3"; b "6"; b "5"].
Proof. reflexivity. Qed.

Example re_match_2715 :
  re_match version_pattern (b "Python 2.7.15rc1") = Some [b "2"; b "7"; b "15"].
Proof. reflexivity. Qed.

(** A digit right after the micro number belongs to it: [\d+] is greedy. *)
Example re_match_greedy_micro :
  re_match version_pattern (version_output 3 6 5 (b "7")) = Some [b "3"; b "6"; b "57"].
Proof. reflexivity. Qed.

Example re_match_short :
  re_match version_pattern (b "Python 3.6") = None.
Proof. reflexivity. Qed.

Example dec_bytes_1204 : dec_bytes 1204 = b "1204".
Proof. reflexivity. Qed.

Example int_of_bytes_007 : int_of_bytes (b "007") = 7.
Proof. reflexivity. Qed.

Example path_join_venv : path_join (path_join "/home/u/venv" "bin") "python" = "/home/u/venv/bin/python".
Proof. reflexivity. Qed.

Example path_join_trailing : path_join "venv/" "bin" = "venv/bin".
Proof. reflexivity. Qed.

Example dirname_twice : dirname (dirname "/usr/local/bin/python3.5") = "/usr/local".
Proof. reflexivity. Qed.

Example dirname_root : dirname "/python" = "/".
Proof. reflexivity. Qed.

Example dirname_bare : dirname "python" = "".
Proof. reflexivity. Qed.

(** ** Decimal digits and [int()] *)

Lemma digit_byte_spec (d : Z) :
  0 <= d < 10 -> is_digit (digit_byte d) = true /\ digit_value (digit_byte d) = d.
Proof.
  intros H.
  assert (d = 0 \/ d = 1 \/ d = 2 \/ d = 3 \/ d = 4 \/ d = 5 \/ d = 6 \/ d = 7 \/
          d = 8 \/ d = 9) as Hd by lia.
  repeat (destruct Hd as [Hd | Hd]; [subst d; split; reflexivity |]).
  subst d; split; reflexivity.
Qed.

Lemma is_digit_value (c : byte) : is_digit c = true -> 0 <= digit_value c < 10.
Proof.
  unfold is_digit, digit_value. rewrite andb_true_iff, !N.leb_le. lia.
Qed.

Lemma mod10_range (n : Z) : 0 <= n mod 10 < 10.
Proof. apply Z.mod_pos_bound. lia. Qed.

Lemma dec_digits_aux_digits (fuel : nat) : forall (n : Z) (acc : bytes),
  forallb is_digit acc = true ->
  forallb is_digit (dec_digits_aux fuel n acc) = true.
Proof.
  induction fuel as [| fuel IH]; intros n acc Hacc; simpl.
  - rewrite Hacc. destruct (digit_byte_spec (n mod 10) (mod10_range n)) as [-> _].
    reflexivity.
  - assert (forallb is_digit (digit_byte (n mod 10) :: acc) = true) as Hcons.
    { simpl. rewrite Hacc.
      destruct (digit_byte_spec (n mod 10) (mod10_range n)) as [-> _]. reflexivity. }
    destruct (n <? 10); [exact Hcons | apply IH, Hcons].
Qed.

Lemma dec_digits_aux_nonempty (fuel : nat) : forall (n : Z) (acc : bytes),
  dec_digits_aux fuel n acc <> [].
Proof.
  induction fuel as [| fuel IH]; intros n acc; simpl.
  - discriminate.
  - destruct (n <? 10); [discriminate | apply IH].
Qed.

Lemma dec_digits_aux_int (fuel : nat) : forall (n : Z) (acc : bytes),
  0 <= n < 10 * 2 ^ Z.of_nat fuel ->
  fold_left int_step (dec_digits_aux fuel n acc) 0 = fold_left int_step acc n.
Proof.
  induction fuel as [| fuel IH]; intros n acc Hn.
  - simpl in *. unfold int_step at 2.
    destruct (digit_byte_spec (n mod 10) (mod10_range n)) as [_ ->].
    rewrite Z.mod_small by lia. reflexivity.
  - cbn [dec_digits_aux]. destruct (Z.ltb_spec n 10) as [Hlt | Hge].
    + simpl. unfold int_step at 2.
      destruct (digit_byte_spec (n mod 10) (mod10_range n)) as [_ ->].
      rewrite Z.mod_small by lia. reflexivity.
    + rewrite IH.
      * simpl. unfold int_step at 2.
        destruct (digit_byte_spec (n mod 10) (mod10_range n)) as [_ ->].
        f_equal. pose proof (Z.div_mod n 10). lia.
      * rewrite Nat2Z.inj_succ, Z.pow_succ_r in Hn by lia.
        split; [apply Z.div_pos; lia |].
        apply Z.div_lt_upper_bound; lia.
Qed.

Lemma log2_fuel (n : Z) : 0 <= n -> n < 10 * 2 ^ Z.of_nat (Z.to_nat (Z.log2 n)).
Proof.
  intros Hn. rewrite Z2Nat.id by apply Z.log2_nonneg.
  destruct (Z.eq_dec n 0) as [-> | Hne]; [reflexivity |].
  assert (0 < n) as Hpos by lia.
  pose proof (Z.log2_spec n Hpos) as [_ Hub].
  rewrite Z.pow_succ_r in Hub by apply Z.log2_nonneg.
  assert (0 < 2 ^ Z.log2 n) by (apply Z.pow_pos_nonneg; [lia | apply Z.log2_nonneg]).
  lia.
Qed.

Lemma dec_bytes_digits (n : Z) : forallb is_digit (dec_bytes n) = true.
Proof. apply dec_digits_aux_digits. reflexivity. Qed.

Lemma dec_bytes_nonempty (n : Z) : dec_bytes n <> [].
Proof. apply dec_digits_aux_nonempty. Qed.

(** [int(str(n)) == n] for a non-negative [n]. *)
Lemma int_of_dec_bytes (n : Z) : 0 <= n -> int_of_bytes (dec_bytes n) = n.
Proof.
  intros Hn. unfold int_of_bytes, dec_bytes.
  rewrite dec_digits_aux_int by (split; [exact Hn | apply log2_fuel, Hn]).
  reflexivity.
Qed.

Lemma int_of_bytes_nonneg (s : bytes) :
  forallb is_digit s = true -> 0 <= int_of_bytes s.
Proof.
  unfold int_of_bytes.
  assert (forall a, 0 <= a -> forallb is_digit s = true -> 0 <= fold_left int_step s a) as H.
  { induction s as [| c s IH]; intros a Ha Hs; simpl in *; [exact Ha |].
    apply andb_true_iff in Hs as [Hc Hs]. apply IH; [| exact Hs].
    unfold int_step. pose proof (is_digit_value c Hc). lia. }
  apply H. lia.
Qed.

(** ** The matcher *)

Lemma digit_run_app (ds rest : bytes) :
  forallb is_digit ds = true -> no_leading_digit rest = true ->
  digit_run (ds ++ rest) = length ds.
Proof.
  intros Hds Hrest. induction ds as [| c ds IH]; simpl in *.
  - destruct rest as [| x rest]; [reflexivity |]. simpl in Hrest.
    destruct (is_digit x) eqn:Hx; [discriminate |]. simpl. rewrite Hx. reflexivity.
  - apply andb_true_iff in Hds as [-> Hds]. f_equal. apply IH, Hds.
Qed.

Lemma digit_run_take (s : bytes) : forall j : nat,
  (j <= digit_run s)%nat ->
  forallb is_digit (take j s) = true /\ length (take j s) = j.
Proof.
  induction s as [| c s IH]; intros j Hj; simpl in Hj.
  - assert (j = O) as -> by lia. split; reflexivity.
  - destruct j as [| j]; [split; reflexivity |].
    destruct (is_digit c) eqn:Hc; [| lia].
    destruct (IH j) as [Hall Hlen]; [lia |].
    simpl. rewrite Hc, Hall, Hlen. split; reflexivity.
Qed.

Lemma first_success_top {A : Type} (k : nat) (try : nat -> option A) (r : A) :
  k <> O -> try k = Some r -> first_success k try = Some r.
Proof.
  intros Hk Hr. destruct k as [| k]; [congruence |]. simpl. rewrite Hr. reflexivity.
Qed.

Lemma first_success_some {A : Type} (try : nat -> option A) (r : A) : forall k : nat,
  first_success k try = Some r ->
  exists j, (1 <= j <= k)%nat /\ try j = Some r.
Proof.
  induction k as [| k IH]; simpl; intros H; [discriminate |].
  destruct (try (S k)) as [r' |] eqn:Htry.
  - exists (S k). split; [lia | congruence].
  - destruct (IH H) as (j & Hj & Hr). exists j. split; [lia | exact Hr].
Qed.

Lemma first_success_none {A : Type} (try : nat -> option A) : forall k : nat,
  first_success k try = None ->
  forall j, (1 <= j <= k)%nat -> try j = None.
Proof.
  induction k as [| k IH]; simpl; intros H j Hj; [lia |].
  destruct (try (S k)) as [r' |] eqn:Htry; [discriminate |].
  destruct (Nat.eq_dec j (S k)) as [-> | Hne]; [exact Htry |].
  apply IH; [exact H | lia].
Qed.

Lemma re_match_lits (l : bytes) (p : list re_item) (s : bytes) :
  re_match (map RLit l ++ p) (l ++ s) = re_match p s.
Proof.
  induction l as [| c l IH]; simpl; [reflexivity |].
  rewrite (@Byte.byte_dec_lb c c eq_refl). exact IH.
Qed.

Lemma re_match_number (ds rest : bytes) (p : list re_item) (gs : list bytes) :
  is_number ds -> no_leading_digit rest = true ->
  re_match p rest = Some gs ->
  re_match (RDigits :: p) (ds ++ rest) = Some (ds :: gs).
Proof.
  intros [Hne Hds] Hrest Hp. cbn [re_match].
  rewrite digit_run_app by assumption.
  apply first_success_top.
  - destruct ds; [congruence | discriminate].
  - rewrite take_app_length, drop_app_length, Hp. reflexivity.
Qed.

Lemma dec_bytes_number (n : Z) : is_number (dec_bytes n).
Proof. split; [apply dec_bytes_nonempty | apply dec_bytes_digits]. Qed.

Lemma re_match_lit (c : byte) (p : list re_item) (s : bytes) :
  re_match (RLit c :: p) (c :: s) = re_match p s.
Proof. simpl. rewrite (@Byte.byte_dec_lb c c eq_refl). reflexivity. Qed.

(** The pattern reads a rendered triple back as its three numbers. *)
Lemma re_match_version_output (mj mn mc : Z) (rest : bytes) :
  no_leading_digit rest = true ->
  re_match version_pattern (version_output mj mn mc rest)
  = Some [dec_bytes mj; dec_bytes mn; dec_bytes mc].
Proof.
  intros Hrest. unfold version_pattern, version_output.
  rewrite re_match_lits.
  apply re_match_number; [apply dec_bytes_number | reflexivity |].
  change ([x2e] ++ dec_bytes mn ++ [x2e] ++ dec_bytes mc ++ rest)
    with (x2e :: (dec_bytes mn ++ [x2e] ++ dec_bytes mc ++ rest))%list.
  rewrite re_match_lit.
  apply re_match_number; [apply dec_bytes_number | reflexivity |].
  change ([x2e] ++ dec_bytes mc ++ rest) with (x2e :: (dec_bytes mc ++ rest))%list.
  rewrite re_match_lit.
  apply re_match_number; [apply dec_bytes_number | exact Hrest | reflexivity].
Qed.

(** Whatever the input, a match captures one number per group. *)
Lemma re_match_groups (p : list re_item) : forall (s : bytes) (gs : list bytes),
  re_match p s = Some gs ->
  length gs = count_groups p /\ Forall is_number gs.
Proof.
  induction p as [| [c |] p IH]; intros s gs H; cbn [re_match count_groups] in *.
  - injection H as <-. split; [reflexivity | constructor].
  - destruct s as [| x s]; [discriminate |].
    destruct (Byte.eqb x c); [eapply IH, H | discriminate].
  - apply first_success_some in H as (j & Hj & Hr).
    destruct (re_match p (drop j s)) as [gs' |] eqn:Hrec; [| discriminate].
    simpl in Hr. injection Hr as <-.
    destruct (IH _ _ Hrec) as [Hlen Hall].
    destruct (digit_run_take s j) as [Hdig Hjlen]; [lia |].
    split; [simpl; congruence |].
    constructor; [| exact Hall]. split; [| exact Hdig].
    intros Hnil. rewrite Hnil in Hjlen. simpl in Hjlen. lia.
Qed.

Lemma version_pattern_groups (s : bytes) (gs : list bytes) :
  re_match version_pattern s = Some gs ->
  exists m1 m2 m3, gs = [m1; m2; m3] /\ is_number m1 /\ is_number m2 /\ is_number m3.
Proof.
  intros H. apply re_match_groups in H as [Hlen Hall].
  change (count_groups version_pattern) with 3%nat in Hlen.
  destruct gs as [| m1 [| m2 [| m3 [| m4 gs]]]]; try discriminate.
  exists m1, m2, m3.
  inversion Hall as [| ? ? H1 Hall1]; subst.
  inversion Hall1 as [| ? ? H2 Hall2]; subst.
  inversion Hall2 as [| ? ? H3 _]; subst.
  auto.
Qed.

(** ** The monad and the heap *)

Lemma bind_ok {A B : Type} (c : M A) (k : A -> M B) (st st' : State) (a : A) :
  c st = (Ok a, st') -> bind c k st = k a st'.
Proof. intros H. unfold bind. rewrite H. reflexivity. Qed.

Lemma bind_raise {A B : Type} (c : M A) (k : A -> M B) (st st' : State) (e : Exn) :
  c st = (Raise e, st') -> bind c k st = (Raise e, st').
Proof. intros H. unfold bind. rewrite H. reflexivity. Qed.

Lemma lookup_snoc (h : list Obj) (o : Obj) : (h ++ [o]) !! length h = Some o.
Proof. induction h as [| x h IH]; simpl; [reflexivity | exact IH]. Qed.

Lemma insert_snoc (h : list Obj) (o o' : Obj) :
  <[length h := o']> (h ++ [o]) = h ++ [o'].
Proof. induction h as [| x h IH]; simpl; [reflexivity | f_equal; exact IH]. Qed.

Lemma update_snoc (h : list Obj) (o : Obj) (t : list Event) (f : Obj -> Obj) :
  update (length h) f {| heap := h ++ [o]; trace := t |}
  = (Ok tt, {| heap := h ++ [f o]; trace := t |}).
Proof.
  unfold update. cbn [heap trace]. rewrite lookup_snoc, insert_snoc. reflexivity.
Qed.

Lemma getattr_snoc {A : Type} (field : Obj -> option A) (h : list Obj) (o : Obj)
    (t : list Event) (v : A) :
  field o = Some v ->
  getattr field (length h) {| heap := h ++ [o]; trace := t |}
  = (Ok v, {| heap := h ++ [o]; trace := t |}).
Proof.
  intros Hv. unfold getattr, bind, deref. cbn [heap]. rewrite lookup_snoc, Hv.
  reflexivity.
Qed.

(** Reading an attribute changes nothing. *)
Lemma getattr_pure {A : Type} (field : Obj -> option A) (self : Loc) (st : State) :
  snd (getattr field self st) = st.
Proof.
  unfold getattr, bind, deref. destruct (heap st !! self) as [o |]; [| reflexivity].
  destruct (field o); reflexivity.
Qed.

(** ** The version probe *)

Lemma probe_unfold (host : Host) (executable : string) :
  probe host executable =
  match popen host [executable; "--version"] with
  | None => Raise (InvalidPythonEnvironment None)
  | Some process =>
      if negb (retcode process =? 0) then Raise (InvalidPythonEnvironment None)
      else
        match re_match version_pattern (stdout process ++ stderr process) with
        | None => Raise (InvalidPythonEnvironment None)
        | Some [m1; m2; m3] =>
            Ok (VersionInfo (int_of_bytes m1) (int_of_bytes m2) (int_of_bytes m3))
        | Some _ => Raise (OtherException "TypeError")
        end
  end.
Proof.
  unfold probe, _get_version, bind, log. cbn [fst].
  destruct (popen host [executable; "--version"]) as [p |]; [| reflexivity].
  destruct (negb (retcode p =? 0)); [reflexivity |].
  destruct (re_match version_pattern (stdout p ++ stderr p))
    as [[| m1 [| m2 [| m3 [| m4 gs]]]] |]; reflexivity.
Qed.

(** The probe spawns [executable --version] once, whatever its outcome, and
    touches nothing else. *)
Lemma get_version_run (host : Host) (executable : string) (st : State) :
  _get_version host executable st
  = (probe host executable,
     {| heap := heap st; trace := trace st ++ [version_event executable] |}).
Proof.
  unfold probe, _get_version, bind, log, version_event. cbn [fst].
  destruct (popen host [executable; "--version"]) as [p |]; [| reflexivity].
  destruct (negb (retcode p =? 0)); [reflexivity |].
  destruct (re_match version_pattern (stdout p ++ stderr p))
    as [[| m1 [| m2 [| m3 [| m4 gs]]]] |]; reflexivity.
Qed.

(** The probe either gives a triple of non-negative integers or raises
    [InvalidPythonEnvironment]. *)
Lemma probe_outcome (host : Host) (executable : string) :
  (exists v, probe host executable = Ok v /\ 0 <= major v /\ 0 <= minor v /\ 0 <= micro v)
  \/ probe host executable = Raise (InvalidPythonEnvironment None).
Proof.
  rewrite probe_unfold.
  destruct (popen host [executable; "--version"]) as [p |]; [| right; reflexivity].
  destruct (negb (retcode p =? 0)); [right; reflexivity |].
  destruct (re_match version_pattern (stdout p ++ stderr p)) as [gs |] eqn:Hm;
    [| right; reflexivity].
  apply version_pattern_groups in Hm as (m1 & m2 & m3 & -> & [_ H1] & [_ H2] & [_ H3]).
  left. eexists. split; [reflexivity |]. cbn [major minor micro].
  auto using int_of_bytes_nonneg.
Qed.

(** ** Constructors *)

(** What [Environment(path, executable)] does: it allocates the instance, sets
    the two paths, probes the executable, and sets [version_info] if the probe
    gave a version.  If the probe raises, the exception leaves the constructor
    and no reference to the instance is returned. *)
Lemma Environment_run (host : Host) (path executable : string) (st : State) :
  Environment host path executable st =
  match probe host executable with
  | Ok v =>
      (Ok (length (heap st)),
       {| heap := heap st ++ [env_obj path executable (Some v)];
          trace := trace st ++ [version_event executable] |})
  | Raise e =>
      (Raise e,
       {| heap := heap st ++ [env_obj path executable None];
          trace := trace st ++ [version_event executable] |})
  end.
Proof.
  unfold Environment, Environment__init__.
  unfold bind at 1. unfold new.
  unfold bind at 1. unfold bind at 1. rewrite update_snoc.
  unfold bind at 1. rewrite update_snoc.
  unfold bind at 1. erewrite getattr_snoc by reflexivity.
  unfold bind at 1. rewrite get_version_run. cbn [heap trace].
  destruct (probe host executable) as [v | e]; [| reflexivity].
  rewrite update_snoc. reflexivity.
Qed.

Lemma InterpreterEnvironment_run (host : Host) (st : State) :
  InterpreterEnvironment host st =
  (Ok (length (heap st)),
   {| heap := heap st ++ [interp_obj (sys_version_info host)]; trace := trace st |}).
Proof.
  unfold InterpreterEnvironment, InterpreterEnvironment__init__.
  unfold bind at 1. unfold new.
  unfold bind at 1. rewrite update_snoc.
  unfold ret, interp_obj, set_version_info. cbn.
  destruct (sys_version_info host); reflexivity.
Qed.

Lemma get_executable_path_run (host : Host) (path : string) (st : State) :
  _get_executable_path host path st =
  if os_path_exists host (bin_activate path) && os_path_exists host (bin_python path)
  then (Ok (bin_python path), st)
  else (Raise (InvalidPythonEnvironment
                 (Some "One of bin/activate and bin/python is missing.")), st).
Proof.
  unfold _get_executable_path, bin_activate, bin_python. cbn [forallb].
  rewrite andb_true_r.
  destruct (os_path_exists host (path_join (path_join path "bin") "activate")
            && os_path_exists host (path_join (path_join path "bin") "python"));
    reflexivity.
Qed.

(** ** The version probe: parsing and failure *)

(** C2. For every triple of non-negative integers, if the child exits with
    code 0 and its combined output (stdout followed by stderr, however the
    bytes are split between the two streams) starts with
    [Python <major>.<minor>.<micro>], then [_get_version] returns exactly that
    triple. *)
Theorem get_version_parses_triple (host : Host) (executable : string) (st : State)
    (process : Completed) (mj mn mc : Z) (rest : bytes) :
  0 <= mj -> 0 <= mn -> 0 <= mc ->
  no_leading_digit rest = true ->
  popen host [executable; "--version"] = Some process ->
  retcode process = 0 ->
  stdout process ++ stderr process = version_output mj mn mc rest ->
  fst (_get_version host executable st) = Ok (VersionInfo mj mn mc).
Proof.
  intros Hmj Hmn Hmc Hrest Hpopen Hret Hout.
  rewrite get_version_run. cbn [fst]. rewrite probe_unfold, Hpopen, Hret, Hout.
  cbn [Z.eqb negb]. rewrite re_match_version_output by exact Hrest.
  rewrite !int_of_dec_bytes by assumption. reflexivity.
Qed.

(** The version of Python 2.7, printed on stderr, is read back. *)
Lemma get_version_parses_triple_witness :
  fst (_get_version demo_host "/usr/bin/python2.7" empty_state)
  = Ok (VersionInfo 2 7 15).
Proof.
  apply (get_version_parses_triple demo_host "/usr/bin/python2.7" empty_state
           {| stdout := []; stderr := b "Python 2.7.15" ++ nl; retcode := 0 |}
           2 7 15 nl);
    [lia | lia | lia | reflexivity | reflexivity | reflexivity | reflexivity].
Defined.

(** The same output on stdout, as Python 3.4 and later print it. *)
Example get_version_stdout :
  fst (_get_version demo_host "/usr/bin/python3.6" empty_state)
  = Ok (VersionInfo 3 6 5).
Proof. reflexivity. Qed.

(** C3. [_get_version] raises [InvalidPythonEnvironment] in exactly three
    cases: the child cannot be started, it exits with a non-zero code, or its
    combined output does not match the pattern.  In every other case it returns
    a triple whose three fields are the three captured numbers; a failure
    returns no triple at all. *)
Theorem get_version_failure_cases (host : Host) (executable : string) (st : State) :
  let argv := [executable; "--version"] in
  let r := fst (_get_version host executable st) in
  (r = Raise (InvalidPythonEnvironment None) <->
     popen host argv = None \/
     (exists p, popen host argv = Some p /\ retcode p <> 0) \/
     (exists p, popen host argv = Some p /\ retcode p = 0 /\
                re_match version_pattern (stdout p ++ stderr p) = None)) /\
  (r = Raise (InvalidPythonEnvironment None) \/
   exists p m1 m2 m3,
     popen host argv = Some p /\ retcode p = 0 /\
     re_match version_pattern (stdout p ++ stderr p) = Some [m1; m2; m3] /\
     r = Ok (VersionInfo (int_of_bytes m1) (int_of_bytes m2) (int_of_bytes m3)) /\
     0 <= int_of_bytes m1 /\ 0 <= int_of_bytes m2 /\ 0 <= int_of_bytes m3).
Proof.
  cbv zeta. rewrite get_version_run. cbn [fst]. rewrite probe_unfold.
  destruct (popen host [executable; "--version"]) as [p |] eqn:Hpopen.
  2: { split; [| left; reflexivity]. split; [intros _; left; reflexivity | reflexivity]. }
  destruct (Z.eqb_spec (retcode p) 0) as [Hret | Hret]; cbn [negb].
  2: { split; [| left; reflexivity].
       split; [intros _; right; left; exists p; auto | reflexivity]. }
  destruct (re_match version_pattern (stdout p ++ stderr p)) as [gs |] eqn:Hm.
  2: { split; [| left; reflexivity].
       split; [intros _; right; right; exists p; auto | reflexivity]. }
  destruct (version_pattern_groups _ _ Hm) as (m1 & m2 & m3 & -> & [_ H1] & [_ H2] & [_ H3]).
  split.
  - split; [discriminate |].
    intros [Hnone | [(p' & Hp' & Hne) | (p' & Hp' & _ & Hno)]].
    + discriminate.
    + injection Hp' as <-. contradiction.
    + injection Hp' as <-. congruence.
  - right. exists p, m1, m2, m3.
    auto 10 using int_of_bytes_nonneg.
Qed.

(** ** Directory validation *)

(** C4. [_get_executable_path(path)] returns [path/bin/python] if and only if
    both [path/bin/activate] and [path/bin/python] exist; otherwise it raises
    [InvalidPythonEnvironment] and returns nothing.  It has no other effect. *)
Theorem get_executable_path_iff (host : Host) (path : string) (st : State) :
  let r := _get_executable_path host path st in
  (fst r = Ok (bin_python path) <->
     os_path_exists host (bin_activate path) = true /\
     os_path_exists host (bin_python path) = true) /\
  (fst r = Raise (InvalidPythonEnvironment
                    (Some "One of bin/activate and bin/python is missing.")) <->
     os_path_exists host (bin_activate path) = false \/
     os_path_exists host (bin_python path) = false) /\
  snd r = st.
Proof.
  cbv zeta. rewrite get_executable_path_run.
  destruct (os_path_exists host (bin_activate path));
    destruct (os_path_exists host (bin_python path)); cbn;
    (split; [| split; [| reflexivity]]); split;
    try discriminate; try reflexivity; intuition discriminate.
Qed.

(** For a path that is not empty and does not end with a separator, the
    interpreter path is the path followed by [/bin/python]. *)
Example bin_python_venv : bin_python "/home/u/venv" = "/home/u/venv/bin/python".
Proof. reflexivity. Qed.

Example get_executable_path_both :
  fst (_get_executable_path demo_host "/home/u/venv" empty_state)
  = Ok "/home/u/venv/bin/python".
Proof. reflexivity. Qed.

Example get_executable_path_no_python :
  fst (_get_executable_path demo_host "/home/u/half" empty_state)
  = Raise (InvalidPythonEnvironment (Some "One of bin/activate and bin/python is missing.")).
Proof. reflexivity. Qed.

(** ** Discovery *)

Lemma probe_raise (host : Host) (executable : string) (e : Exn) :
  probe host executable = Raise e -> e = InvalidPythonEnvironment None.
Proof.
  intros H. destruct (probe_outcome host executable) as [(v & Hv & _) | Hr];
    congruence.
Qed.

Lemma probe_ok_nonneg (host : Host) (executable : string) (v : _VersionInfo) :
  probe host executable = Ok v -> 0 <= major v /\ 0 <= minor v /\ 0 <= micro v.
Proof.
  intros H. destruct (probe_outcome host executable) as [(v' & Hv & Hnn) | Hr];
    [| congruence].
  rewrite H in Hv. injection Hv as ->. exact Hnn.
Qed.

Lemma create_environment_run (host : Host) (path : string) (st : State) :
  create_environment host path st =
  if os_path_exists host (bin_activate path) && os_path_exists host (bin_python path)
  then Environment host path (bin_python path) st
  else (Raise (InvalidPythonEnvironment
                 (Some "One of bin/activate and bin/python is missing.")), st).
Proof.
  unfold create_environment, bind. rewrite get_executable_path_run.
  destruct (os_path_exists host (bin_activate path)
            && os_path_exists host (bin_python path)); reflexivity.
Qed.

Lemma points_to_push (st : State) (ext : list Obj) (o : Obj) (h : list Obj) :
  heap st = (h ++ [o]) ++ ext -> points_to st (length h) o.
Proof.
  intros H. unfold points_to. rewrite H.
  rewrite lookup_app_l by (rewrite length_app; simpl; lia).
  apply lookup_snoc.
Qed.

Lemma yielded_push (env : Loc) (r : Drained * State) :
  yielded (fst (push env r)) = env :: yielded (fst r)
  /\ raised (fst (push env r)) = raised (fst r)
  /\ snd (push env r) = snd r.
Proof. repeat split. Qed.

(** The loop of [find_virtualenvs] never raises; it only extends the heap and
    yields, in input order, references to the instances of the valid
    candidates. *)
Lemma find_virtualenvs_loop_spec (host : Host) (paths : list string) :
  forall st : State,
    let r := find_virtualenvs_loop host paths st in
    raised (fst r) = None /\
    (exists ext, heap (snd r) = heap st ++ ext) /\
    Forall2 (points_to (snd r)) (yielded (fst r)) (valid_virtualenvs host paths).
Proof.
  induction paths as [| path rest IH]; intros st; cbv zeta.
  - cbn. split; [reflexivity |]. split; [exists []; rewrite app_nil_r; reflexivity |].
    constructor.
  - cbn [find_virtualenvs_loop valid_virtualenvs].
    change (bind (_get_executable_path host path) (fun executable => Environment host path executable))
      with (create_environment host path).
    rewrite create_environment_run.
    destruct (os_path_exists host (bin_activate path)
              && os_path_exists host (bin_python path)).
    2: { apply IH. }
    rewrite Environment_run.
    destruct (probe host (bin_python path)) as [v | e] eqn:Hprobe.
    + set (st1 := {| heap := heap st ++ [env_obj path (bin_python path) (Some v)];
                     trace := trace st ++ [version_event (bin_python path)] |}).
      destruct (IH st1) as (Hraised & [ext Hext] & Hall).
      destruct (yielded_push (length (heap st)) (find_virtualenvs_loop host rest st1))
        as (-> & -> & ->).
      split; [exact Hraised |].
      split; [exists ([env_obj path (bin_python path) (Some v)] ++ ext);
              rewrite Hext; subst st1; cbn [heap]; rewrite <- app_assoc; reflexivity |].
      constructor; [| exact Hall].
      eapply points_to_push. exact Hext.
    + rewrite (probe_raise _ _ _ Hprobe).
      set (st1 := {| heap := heap st ++ [env_obj path (bin_python path) None];
                     trace := trace st ++ [version_event (bin_python path)] |}).
      destruct (IH st1) as (Hraised & [ext Hext] & Hall).
      split; [exact Hraised |].
      split; [exists ([env_obj path (bin_python path) None] ++ ext);
              rewrite Hext; subst st1; cbn [heap]; rewrite <- app_assoc; reflexivity |].
      exact Hall.
Qed.

Lemma valid_virtualenvs_versioned (host : Host) (paths : list string) :
  Forall (fun o => exists v, version_info o = Some v /\
                             0 <= major v /\ 0 <= minor v /\ 0 <= micro v)
         (valid_virtualenvs host paths).
Proof.
  induction paths as [| path rest IH]; cbn [valid_virtualenvs]; [constructor |].
  destruct (os_path_exists host (bin_activate path)
            && os_path_exists host (bin_python path)); [| exact IH].
  destruct (probe host (bin_python path)) as [v | e] eqn:Hprobe; [| exact IH].
  constructor; [| exact IH].
  exists v. split; [reflexivity | eapply probe_ok_nonneg, Hprobe].
Qed.

Lemma points_to_versioned (st : State) (ls : list Loc) (os : list Obj) :
  Forall2 (points_to st) ls os ->
  Forall (fun o => exists v, version_info o = Some v /\
                             0 <= major v /\ 0 <= minor v /\ 0 <= micro v) os ->
  Forall (has_version st) ls.
Proof.
  intros H2. induction H2 as [| l o ls os Hlo _ IH]; intros Hos; [constructor |].
  inversion Hos as [| ? ? (v & Hv & Hnn) Hos']; subst.
  constructor; [| apply IH, Hos'].
  exists o, v. auto.
Qed.

Lemma find_virtualenvs_drained (host : Host) (paths : list string) (st : State) :
  raised (fst (find_virtualenvs host (Some paths) st)) = None /\
  Forall2 (points_to (snd (find_virtualenvs host (Some paths) st)))
          (yielded (fst (find_virtualenvs host (Some paths) st)))
          (valid_virtualenvs host paths).
Proof.
  unfold find_virtualenvs.
  destruct (find_virtualenvs_loop_spec host paths st) as (Hraised & _ & Hall).
  split; assumption.
Qed.

(** C5. [find_virtualenvs] never raises: a candidate whose validation or
    probe fails is skipped, and the instances yielded are exactly those of
    the valid candidates, in input order. *)
Theorem find_virtualenvs_skips_invalid (host : Host) (paths : list string) (st : State) :
  let r := find_virtualenvs host (Some paths) st in
  raised (fst r) = None /\
  Forall2 (points_to (snd r)) (yielded (fst r)) (valid_virtualenvs host paths) /\
  find_virtualenvs host None st = ({| yielded := []; raised := None |}, st).
Proof.
  cbv zeta. destruct (find_virtualenvs_drained host paths st) as [Hraised Hall].
  split; [exact Hraised |]. split; [exact Hall |]. reflexivity.
Qed.

(** One valid directory between two invalid ones: one instance is yielded,
    that of the valid directory. *)
Example find_virtualenvs_one_of_three :
  let r := find_virtualenvs demo_host
             (Some ["/nonexistent"; "/home/u/venv"; "/home/u/half"]) empty_state in
  raised (fst r) = None /\
  exists l, yielded (fst r) = [l] /\
    points_to (snd r) l
      (env_obj "/home/u/venv" "/home/u/venv/bin/python" (Some (VersionInfo 3 6 5))).
Proof. cbv zeta. split; [reflexivity |]. exists 0%nat. split; reflexivity. Qed.

Lemma get_python_environment_run (host : Host) (python_name : string) (st : State) :
  get_python_environment host python_name st =
  match find_executable host python_name with
  | None => (Raise (InvalidPythonEnvironment (Some "This executable doesn't exist.")), st)
  | Some exe => Environment host (dirname (dirname exe)) exe st
  end.
Proof.
  unfold get_python_environment.
  destruct (find_executable host python_name); reflexivity.
Qed.

Lemma heap_extends_snoc (st st1 st2 : State) (o : Obj) (ext : list Obj) :
  heap st1 = heap st ++ [o] ->
  heap st2 = heap st1 ++ ext ->
  exists ext', heap st2 = heap st ++ ext'.
Proof.
  intros H1 H2. exists ([o] ++ ext). rewrite H2, H1, <- app_assoc. reflexivity.
Qed.

(** The loop of [find_python_environments] against the enumeration by tags:
    same end, same instances in the same order, same commands spawned. *)
Lemma find_python_environments_loop_spec (host : Host) (cur : string) (tags : list string) :
  forall st : State,
    let r := find_python_environments_loop host cur tags st in
    let e := enumerate_tags host cur tags in
    raised (fst r) = enum_raised e /\
    (exists ext, heap (snd r) = heap st ++ ext) /\
    Forall2 (points_to (snd r)) (yielded (fst r)) (enum_envs e) /\
    trace (snd r) = trace st ++ enum_spawned e.
Proof.
  induction tags as [| tag rest IH]; intros st; cbv zeta.
  - cbn. rewrite !app_nil_r. repeat split; [exists []; rewrite app_nil_r; reflexivity | constructor].
  - cbn [find_python_environments_loop enumerate_tags].
    destruct (String.eqb tag cur).
    + unfold get_default_environment. rewrite Environment_run.
      destruct (probe host (sys_executable host)) as [v | e] eqn:Hprobe.
      * set (o := env_obj (sys_prefix host) (sys_executable host) (Some v)).
        set (st1 := {| heap := heap st ++ [o];
                       trace := trace st ++ [version_event (sys_executable host)] |}).
        destruct (IH st1) as (Hraised & [ext Hext] & Hall & Htrace).
        destruct (yielded_push (length (heap st))
                    (find_python_environments_loop host cur rest st1)) as (-> & -> & ->).
        cbn [enum_cons enum_envs enum_raised enum_spawned].
        split; [exact Hraised |].
        split; [eapply (heap_extends_snoc st st1); [reflexivity | exact Hext] |].
        split; [constructor; [eapply points_to_push; exact Hext | exact Hall] |].
        rewrite Htrace. subst st1. cbn [trace]. rewrite <- app_assoc. reflexivity.
      * cbn. repeat split; [| constructor].
        exists [env_obj (sys_prefix host) (sys_executable host) None]. reflexivity.
    + rewrite get_python_environment_run.
      destruct (find_executable host ("python" +:+ tag)) as [exe |].
      2: { apply IH. }
      rewrite Environment_run.
      destruct (probe host exe) as [v | e] eqn:Hprobe.
      * set (o := env_obj (dirname (dirname exe)) exe (Some v)).
        set (st1 := {| heap := heap st ++ [o];
                       trace := trace st ++ [version_event exe] |}).
        destruct (IH st1) as (Hraised & [ext Hext] & Hall & Htrace).
        destruct (yielded_push (length (heap st))
                    (find_python_environments_loop host cur rest st1)) as (-> & -> & ->).
        cbn [enum_cons enum_envs enum_raised enum_spawned].
        split; [exact Hraised |].
        split; [eapply (heap_extends_snoc st st1); [reflexivity | exact Hext] |].
        split; [constructor; [eapply points_to_push; exact Hext | exact Hall] |].
        rewrite Htrace. subst st1. cbn [trace]. rewrite <- app_assoc. reflexivity.
      * rewrite (probe_raise _ _ _ Hprobe).
        set (o := env_obj (dirname (dirname exe)) exe None).
        set (st1 := {| heap := heap st ++ [o];
                       trace := trace st ++ [version_event exe] |}).
        destruct (IH st1) as (Hraised & [ext Hext] & Hall & Htrace).
        cbn [enum_cons enum_envs enum_raised enum_spawned].
        split; [exact Hraised |].
        split; [eapply (heap_extends_snoc st st1); [reflexivity | exact Hext] |].
        split; [exact Hall |].
        rewrite Htrace. subst st1. cbn [trace]. rewrite <- app_assoc. reflexivity.
Qed.

Lemma enumerate_tags_versioned (host : Host) (cur : string) (tags : list string) :
  Forall (fun o => exists v, version_info o = Some v /\
                             0 <= major v /\ 0 <= minor v /\ 0 <= micro v)
         (enum_envs (enumerate_tags host cur tags)).
Proof.
  induction tags as [| tag rest IH]; cbn [enumerate_tags]; [constructor |].
  destruct (String.eqb tag cur).
  - destruct (probe host (sys_executable host)) as [v | e] eqn:Hprobe; [| constructor].
    cbn. constructor; [| exact IH].
    exists v. split; [reflexivity | eapply probe_ok_nonneg, Hprobe].
  - destruct (find_executable host ("python" +:+ tag)) as [exe |]; [| exact IH].
    destruct (probe host exe) as [v | e] eqn:Hprobe; [| exact IH].
    cbn. constructor; [| exact IH].
    exists v. split; [reflexivity | eapply probe_ok_nonneg, Hprobe].
Qed.

Lemma find_python_environments_drained (host : Host) (st : State) :
  raised (fst (find_python_environments host st))
  = enum_raised (enumerate_tags host (current_tag host) _SUPPORTED_PYTHONS) /\
  Forall2 (points_to (snd (find_python_environments host st)))
          (yielded (fst (find_python_environments host st)))
          (enum_envs (enumerate_tags host (current_tag host) _SUPPORTED_PYTHONS)) /\
  trace (snd (find_python_environments host st))
  = trace st ++ enum_spawned (enumerate_tags host (current_tag host) _SUPPORTED_PYTHONS).
Proof.
  unfold find_python_environments. fold (current_tag host).
  destruct (find_python_environments_loop_spec host (current_tag host)
              _SUPPORTED_PYTHONS st) as (H1 & _ & H2 & H3).
  auto.
Qed.

(** C7, as the code has it. [find_python_environments] goes through the
    supported tags in order.  For the tag of the running interpreter it yields
    [get_default_environment()], a new [Environment(sys.prefix,
    sys.executable)] whose construction probes [sys.executable] once more; if
    that probe fails the exception ends the enumeration.  For every other tag
    it looks up ['python' + tag] on the search path and builds an instance
    whose base path is two directories above the executable; a tag whose
    lookup or probe fails is skipped. *)
Theorem find_python_environments_enumerates (host : Host) (st : State) :
  let r := find_python_environments host st in
  let e := enumerate_tags host (current_tag host) _SUPPORTED_PYTHONS in
  raised (fst r) = enum_raised e /\
  Forall2 (points_to (snd r)) (yielded (fst r)) (enum_envs e) /\
  trace (snd r) = trace st ++ enum_spawned e.
Proof.
  cbv zeta. apply find_python_environments_drained.
Qed.

(** C7 as specified does not hold: on a host that runs Python 3.6, whose
    version is known, the enumeration still spawns [sys.executable --version]
    for the tag 3.6. *)
Lemma find_python_environments_probes_default :
  current_tag demo_host = "3.6" /\
  In "3.6" _SUPPORTED_PYTHONS /\
  find_executable demo_host "python3.6" = None /\
  In (version_event (sys_executable demo_host))
     (trace (snd (find_python_environments demo_host empty_state))).
Proof.
  split; [reflexivity |]. split; [cbn; auto 10 |]. split; [reflexivity |].
  vm_compute. auto 10.
Qed.

(** ** Construction and the version *)

Lemma Environment_builds_versioned (host : Host) (path executable : string) (st : State) :
  builds_versioned (Environment host path executable st).
Proof.
  unfold builds_versioned. rewrite Environment_run.
  destruct (probe host executable) as [v | e] eqn:Hprobe; cbn [fst snd].
  - exists (env_obj path executable (Some v)), v.
    split; [apply lookup_snoc |]. split; [reflexivity |].
    eapply probe_ok_nonneg, Hprobe.
  - exists None. eapply probe_raise, Hprobe.
Qed.

(** C10. Every constructor call that returns gives a reference to an instance
    whose [version_info] is a triple of non-negative integers, and every call
    that does not return raises [InvalidPythonEnvironment]: the probe runs
    inside [Environment.__init__] and its failure leaves the constructor
    before a reference exists.  The same holds for every instance the two
    discovery generators yield. *)
Theorem constructed_environment_has_version (host : Host) (st : State)
    (path executable python_name : string) (paths : option (list string)) :
  builds_versioned (Environment host path executable st) /\
  builds_versioned (create_environment host path st) /\
  builds_versioned (get_default_environment host st) /\
  builds_versioned (get_python_environment host python_name st) /\
  Forall (has_version (snd (find_virtualenvs host paths st)))
         (yielded (fst (find_virtualenvs host paths st))) /\
  Forall (has_version (snd (find_python_environments host st)))
         (yielded (fst (find_python_environments host st))) /\
  trace (snd (Environment host path executable st))
  = trace st ++ [version_event executable] /\
  match probe host executable with
  | Ok v => exists l, fst (Environment host path executable st) = Ok l
  | Raise e => fst (Environment host path executable st) = Raise e
  end.
Proof.
  split; [apply Environment_builds_versioned |].
  split.
  { rewrite create_environment_run.
    destruct (os_path_exists host (bin_activate path)
              && os_path_exists host (bin_python path));
      [apply Environment_builds_versioned | eexists; reflexivity]. }
  split; [apply Environment_builds_versioned |].
  split.
  { rewrite get_python_environment_run.
    destruct (find_executable host python_name);
      [apply Environment_builds_versioned | eexists; reflexivity]. }
  split.
  { destruct paths as [ps |]; [| constructor].
    destruct (find_virtualenvs_drained host ps st) as [_ Hall].
    eapply points_to_versioned; [exact Hall | apply valid_virtualenvs_versioned]. }
  split.
  { destruct (find_python_environments_drained host st) as (_ & Hall & _).
    eapply points_to_versioned; [exact Hall | apply enumerate_tags_versioned]. }
  rewrite Environment_run.
  destruct (probe host executable) as [v | e]; cbn [fst snd trace]; eauto.
Qed.

(** C1 as specified does not hold: constructing the default environment
    spawns a process. *)
Lemma default_environment_probes_at_construction :
  trace (snd (get_default_environment demo_host empty_state)) <> trace empty_state.
Proof. vm_compute. discriminate. Qed.

Lemma get_version_info_snoc (h : list Obj) (o : Obj) (t : list Event) (v : _VersionInfo) :
  version_info o = Some v ->
  get_version_info (length h) {| heap := h ++ [o]; trace := t |}
  = (Ok v, {| heap := h ++ [o]; trace := t |}).
Proof. intros Hv. unfold get_version_info. apply getattr_snoc, Hv. Qed.

(** C1, as the code has it. Constructing an [Environment], the default one
    included, runs the version probe once, at construction: it spawns
    [executable --version].  Reading [version_info] afterwards is a read of
    the attribute.  Constructing an [InterpreterEnvironment], reading its
    version and asking for its path spawn nothing. *)
Theorem environment_probed_at_construction (host : Host) (st : State)
    (path executable : string) :
  trace (snd (get_default_environment host st))
  = trace st ++ [version_event (sys_executable host)] /\
  trace (snd (Environment host path executable st))
  = trace st ++ [version_event executable] /\
  match Environment host path executable st with
  | (Ok l, st') => exists v, get_version_info l st' = (Ok v, st')
  | (Raise e, _) => is_invalid_environment e
  end /\
  match InterpreterEnvironment host st with
  | (Ok l, st') =>
      trace st' = trace st /\
      get_version_info l st' = (Ok (sys_version_info host), st') /\
      get_sys_path host l st' = (Ok (sys_path host), st')
  | (Raise _, _) => False
  end.
Proof.
  unfold get_default_environment. rewrite !Environment_run, InterpreterEnvironment_run.
  split; [destruct (probe host (sys_executable host)); reflexivity |].
  split; [destruct (probe host executable); reflexivity |].
  split.
  - destruct (probe host executable) as [v | e] eqn:Hprobe.
    + exists v. apply get_version_info_snoc. reflexivity.
    + exists None. eapply probe_raise, Hprobe.
  - split; [reflexivity |].
    split; [apply get_version_info_snoc; reflexivity |].
    unfold get_sys_path, bind, deref. cbn [heap]. rewrite lookup_snoc. reflexivity.
Qed.

(** ** Instances of [InterpreterEnvironment] *)

(** C9 as specified does not hold: two retrievals of the in-process
    environment give two different instances. *)
Lemma interpreter_environment_not_singleton :
  fst (InterpreterEnvironment demo_host empty_state)
  <> fst (InterpreterEnvironment demo_host
            (snd (InterpreterEnvironment demo_host empty_state))).
Proof. vm_compute. discriminate. Qed.

(** C9, as the code has it. [InterpreterEnvironment()] builds a new instance
    at each call: two calls give two distinct instances, both of which hold the
    version of the running interpreter, and neither call spawns anything. *)
Theorem interpreter_environment_fresh (host : Host) (st : State) :
  let r1 := InterpreterEnvironment host st in
  let r2 := InterpreterEnvironment host (snd r1) in
  exists l1 l2,
    fst r1 = Ok l1 /\ fst r2 = Ok l2 /\ l1 <> l2 /\
    points_to (snd r2) l1 (interp_obj (sys_version_info host)) /\
    points_to (snd r2) l2 (interp_obj (sys_version_info host)) /\
    trace (snd r2) = trace st.
Proof.
  cbv zeta. rewrite !InterpreterEnvironment_run. cbn [fst snd heap trace].
  exists (length (heap st)), (length (heap st ++ [interp_obj (sys_version_info host)])).
  split; [reflexivity |]. split; [reflexivity |].
  split; [rewrite length_app; simpl; lia |].
  split; [| split; [apply lookup_snoc | reflexivity]].
  unfold points_to. cbn [heap].
  rewrite lookup_app_l by (rewrite length_app; simpl; lia).
  apply lookup_snoc.
Qed.

(** ** The execution channel *)

(** C6. An [InterpreterEnvironment] gives the same-process channel and an
    [Environment] gives the subprocess channel bound to its executable,
    whatever version the instance holds. *)
Theorem execution_channel_by_class (st : State) (self : Loc) (o : Obj)
    (evaluator : Evaluator) :
  points_to st self o ->
  (cls o = ClsInterpreterEnvironment ->
     get_evaluator_subprocess self evaluator st
     = (Ok (EvaluatorSameProcess evaluator), st)) /\
  (cls o = ClsEnvironment ->
     forall exe, _executable o = Some exe ->
       get_evaluator_subprocess self evaluator st
       = (Ok (EvaluatorSubprocess evaluator {| sub_executable := exe |}), st)).
Proof.
  intros Ho. unfold points_to in Ho.
  unfold get_evaluator_subprocess, bind, deref. rewrite Ho.
  split; intros Hcls; rewrite Hcls; [reflexivity |].
  intros exe Hexe.
  unfold Environment_get_evaluator_subprocess, _get_subprocess, getattr, bind, deref.
  rewrite Ho, Hexe. reflexivity.
Qed.

(** The default environment of a host holds the host's own version and still
    gets the subprocess channel. *)
Lemma execution_channel_by_class_witness :
  version_info (env_obj "/usr" "/usr/bin/python3.6" (Some (VersionInfo 3 6 5)))
  = Some (sys_version_info demo_host) /\
  get_evaluator_subprocess 0 7 (snd (get_default_environment demo_host empty_state))
  = (Ok (EvaluatorSubprocess 7 {| sub_executable := "/usr/bin/python3.6" |}),
     snd (get_default_environment demo_host empty_state)).
Proof.
  split; [reflexivity |].
  exact (proj2 (execution_channel_by_class
                  (snd (get_default_environment demo_host empty_state)) 0%nat
                  (env_obj "/usr" "/usr/bin/python3.6" (Some (VersionInfo 3 6 5))) 7%nat
                  eq_refl)
               eq_refl "/usr/bin/python3.6" eq_refl).
Defined.

Example execution_channel_in_process :
  let r := InterpreterEnvironment demo_host empty_state in
  get_evaluator_subprocess 0 7 (snd r) = (Ok (EvaluatorSameProcess 7), snd r).
Proof. reflexivity. Qed.

(** ** Memoisation of the lazily described fields *)

Lemma update_at (self : Loc) (f : Obj -> Obj) (st : State) (o : Obj) :
  heap st !! self = Some o ->
  update self f st = (Ok tt, {| heap := <[self := f o]> (heap st); trace := trace st |}).
Proof. intros H. unfold update. rewrite H. reflexivity. Qed.

Lemma lookup_updated (h : list Obj) (self : Loc) (o o' : Obj) :
  h !! self = Some o -> <[self := o']> h !! self = Some o'.
Proof.
  intros H. apply list_lookup_insert_eq. eapply lookup_lt_Some, H.
Qed.

Lemma get_sys_path_dangling (host : Host) (self : Loc) (st : State) :
  heap st !! self = None ->
  get_sys_path host self st = (Raise (OtherException "ReferenceError"), st).
Proof. intros H. unfold get_sys_path, bind, deref. rewrite H. reflexivity. Qed.

Lemma get_sys_path_in_process (host : Host) (self : Loc) (st : State) (o : Obj) :
  heap st !! self = Some o -> cls o = ClsInterpreterEnvironment ->
  get_sys_path host self st = (Ok (sys_path host), st).
Proof.
  intros H Hcls. unfold get_sys_path, bind, deref. rewrite H, Hcls. reflexivity.
Qed.

Lemma get_sys_path_cached (host : Host) (self : Loc) (st : State) (o : Obj) :
  heap st !! self = Some o -> cls o = ClsEnvironment ->
  get_sys_path host self st =
  match memo_get_sys_path o with
  | Value v => (Ok v, st)
  | Failed e => (Raise e, st)
  | Unset =>
      match Environment_get_sys_path_body host self st with
      | (Ok v, st') => (update self (set_memo (Value v));;; ret v) st'
      | (Raise e, st') => (update self (set_memo (Failed e));;; raise e) st'
      end
  end.
Proof.
  intros H Hcls. unfold get_sys_path, bind at 1, deref. rewrite H, Hcls.
  unfold Environment_get_sys_path, memoize_method, bind at 1, deref. rewrite H.
  destruct (memo_get_sys_path o); reflexivity.
Qed.

(** The first call on an instance whose cell is unset: one query of the
    worker, whose outcome goes into the cell. *)
Lemma get_sys_path_first (host : Host) (self : Loc) (st : State) (o : Obj) :
  heap st !! self = Some o -> cls o = ClsEnvironment ->
  memo_get_sys_path o = Unset ->
  get_sys_path host self st =
  match _executable o with
  | None =>
      (Raise (OtherException "AttributeError"),
       {| heap := <[self := set_memo (Failed (OtherException "AttributeError")) o]> (heap st);
          trace := trace st |})
  | Some exe =>
      match worker_sys_path host exe with
      | Ok v =>
          (Ok v, {| heap := <[self := set_memo (Value v) o]> (heap st);
                    trace := trace st ++ [EvWorkerSysPath exe] |})
      | Raise e =>
          (Raise e, {| heap := <[self := set_memo (Failed e) o]> (heap st);
                       trace := trace st ++ [EvWorkerSysPath exe] |})
      end
  end.
Proof.
  intros H Hcls Hmemo. rewrite (get_sys_path_cached host self st o H Hcls), Hmemo.
  unfold Environment_get_sys_path_body, _get_subprocess, getattr, get_subprocess,
    subprocess_get_sys_path, log, bind, deref, ret, raise.
  rewrite H. destruct (_executable o) as [exe |]; cbn [sub_executable].
  - destruct (worker_sys_path host exe) as [v | e];
      erewrite update_at by (cbn [heap]; exact H); reflexivity.
  - erewrite update_at by exact H. reflexivity.
Qed.

(** One call of [get_sys_path]: at most one query of the worker and no
    version probe; the state it leaves is settled, and neither the outcome
    of a further call nor the version read from the instance differ. *)
Lemma get_sys_path_step (host : Host) (self : Loc) (st : State) :
  get_sys_path host self (snd (get_sys_path host self st))
  = (fst (get_sys_path host self st), snd (get_sys_path host self st)) /\
  fst (get_version_info self (snd (get_sys_path host self st)))
  = fst (get_version_info self st) /\
  exists evs, trace (snd (get_sys_path host self st)) = trace st ++ evs /\
              (length evs <= 1)%nat /\ filter is_popen evs = [].
Proof.
  assert (forall s : State, exists evs, trace s = trace s ++ evs /\
            (length evs <= 1)%nat /\ filter is_popen evs = []) as Hnil.
  { intros s. exists []. rewrite app_nil_r. repeat split. simpl. lia. }
  destruct (heap st !! self) as [o |] eqn:Ho.
  2: { rewrite !(get_sys_path_dangling host self st Ho). cbn [fst snd].
       rewrite (get_sys_path_dangling host self st Ho). auto. }
  destruct (cls o) eqn:Hcls.
  2: { rewrite !(get_sys_path_in_process host self st o Ho Hcls). cbn [fst snd].
       rewrite (get_sys_path_in_process host self st o Ho Hcls). auto. }
  destruct (memo_get_sys_path o) as [| v | e] eqn:Hmemo.
  - rewrite !(get_sys_path_first host self st o Ho Hcls Hmemo).
    assert (forall m t,
              m <> Unset ->
              get_sys_path host self {| heap := <[self := set_memo m o]> (heap st); trace := t |}
              = (match m with Value v => Ok v | Failed e => Raise e | Unset => Ok [] end,
                 {| heap := <[self := set_memo m o]> (heap st); trace := t |})
              /\ fst (get_version_info self
                        {| heap := <[self := set_memo m o]> (heap st); trace := t |})
                 = fst (get_version_info self st)) as Hset.
    { intros m t Hm. split.
      - rewrite (get_sys_path_cached host self _ (set_memo m o));
          [| cbn [heap]; eapply lookup_updated, Ho | exact Hcls].
        cbn [set_memo memo_get_sys_path]. destruct m; [congruence | reflexivity ..].
      - unfold get_version_info, getattr, bind, deref. cbn [heap].
        rewrite (lookup_updated _ _ _ _ Ho), Ho. cbn [set_memo version_info].
        destruct (version_info o); reflexivity. }
    destruct (_executable o) as [exe |].
    + destruct (worker_sys_path host exe) as [v | e]; cbn [fst snd trace];
        (destruct (Hset (Value v) (trace st ++ [EvWorkerSysPath exe])) as [H1 H2]
         || destruct (Hset (Failed e) (trace st ++ [EvWorkerSysPath exe])) as [H1 H2]);
        try discriminate;
        (split; [exact H1 |]; split; [exact H2 |];
         exists [EvWorkerSysPath exe]; repeat split; simpl; lia).
    + cbn [fst snd trace].
      destruct (Hset (Failed (OtherException "AttributeError")) (trace st)) as [H1 H2];
        [discriminate |].
      split; [exact H1 |]. split; [exact H2 |]. apply (Hnil st).
  - rewrite !(get_sys_path_cached host self st o Ho Hcls), Hmemo. cbn [fst snd].
    rewrite (get_sys_path_cached host self st o Ho Hcls), Hmemo. auto.
  - rewrite !(get_sys_path_cached host self st o Ho Hcls), Hmemo. cbn [fst snd].
    rewrite (get_sys_path_cached host self st o Ho Hcls), Hmemo. auto.
Qed.

Lemma get_version_info_pure (self : Loc) (st : State) :
  snd (get_version_info self st) = st.
Proof. apply getattr_pure. Qed.

Lemma access_settled (host : Host) (self : Loc) (st : State) (a : Access) :
  settled host self st -> access host self a st = (obs_at host self st a, st).
Proof.
  intros Hs. unfold obs_at. destruct a; cbn [access fst].
  - rewrite get_version_info_pure. reflexivity.
  - rewrite Hs. reflexivity.
Qed.

(** In a settled state every access is a pure read. *)
Lemma accesses_settled (host : Host) (self : Loc) (st : State) (l : list Access) :
  settled host self st ->
  accesses host self l st = (map (obs_at host self st) l, st).
Proof.
  intros Hs. induction l as [| a l IH]; [reflexivity |].
  cbn [accesses map]. rewrite (access_settled host self st a Hs). cbn [fst snd].
  rewrite IH. reflexivity.
Qed.

(** C8. Whatever the instance and however often its version and its path are
    read, the reads spawn no version probe and query the worker at most once;
    every read of the version returns the same value, and every read of the
    path returns what the first one returned. *)
Theorem lazy_fields_memoized (host : Host) (self : Loc) (l : list Access) (st : State) :
  let r := accesses host self l st in
  (exists evs, trace (snd r) = trace st ++ evs /\
               (length evs <= 1)%nat /\ filter is_popen evs = []) /\
  (forall rv, In (ObsVersion rv) (fst r) -> rv = fst (get_version_info self st)) /\
  (forall rs, In (ObsSysPath rs) (fst r) -> rs = fst (get_sys_path host self st)).
Proof.
  cbv zeta. induction l as [| a l IH].
  - cbn. split; [| split; intros ? []].
    exists []. rewrite app_nil_r. repeat split. simpl. lia.
  - destruct a; cbn [accesses access fst snd].
    + rewrite !get_version_info_pure.
      destruct IH as (Hev & Hv & Hp).
      split; [exact Hev |].
      split.
      * intros rv [Heq | Hin]; [injection Heq as <-; reflexivity | apply Hv, Hin].
      * intros rs [Heq | Hin]; [discriminate | apply Hp, Hin].
    + destruct (get_sys_path_step host self st) as (Hagain & Hver & Hev).
      assert (settled host self (snd (get_sys_path host self st))) as Hs.
      { unfold settled. rewrite Hagain. reflexivity. }
      rewrite (accesses_settled host self _ l Hs). cbn [fst snd].
      split; [exact Hev |].
      split.
      * intros rv [Heq | Hin]; [discriminate |].
        apply in_map_iff in Hin as ([|] & Hobs & _); unfold obs_at in Hobs;
          cbn [access fst] in Hobs; [| discriminate].
        injection Hobs as <-. exact Hver.
      * intros rs [Heq | Hin]; [injection Heq as <-; reflexivity |].
        apply in_map_iff in Hin as ([|] & Hobs & _); unfold obs_at in Hobs;
          cbn [access fst] in Hobs; [discriminate |].
        injection Hobs as <-. rewrite Hagain. reflexivity.
Qed.

(** Over the lifetime of an [Environment], from its construction on: one
    version probe, the one of the constructor, and at most one query of the
    worker. *)
Lemma environment_lifetime_spawns (host : Host) (path executable : string)
    (l : list Access) (st : State) :
  exists evs,
    trace (snd (accesses host (length (heap st)) l
                  (snd (Environment host path executable st))))
    = trace st ++ [version_event executable] ++ evs /\
    (length evs <= 1)%nat /\ filter is_popen evs = [].
Proof.
  pose proof (Environment_run host path executable st) as Hrun.
  assert (trace (snd (Environment host path executable st))
          = trace st ++ [version_event executable]) as Htr.
  { rewrite Hrun. destruct (probe host executable); reflexivity. }
  assert (forall s, exists evs,
            trace (snd (accesses host (length (heap st)) l s)) = trace s ++ evs /\
            (length evs <= 1)%nat /\ filter is_popen evs = []) as Hgen.
  { intros s. revert s. induction l as [| a l IH]; intros s.
    - exists []. cbn. rewrite app_nil_r. repeat split. lia.
    - destruct a; cbn [accesses access fst snd].
      + rewrite get_version_info_pure. apply IH.
      + destruct (get_sys_path_step host (length (heap st)) s) as (Hagain & _ & Hev).
        rewrite accesses_settled; [exact Hev |].
        unfold settled. rewrite Hagain. reflexivity. }
  destruct (Hgen (snd (Environment host path executable st))) as (evs & He & Hl & Hf).
  exists evs. rewrite He, Htr, <- app_assoc. auto.
Qed.

Example accesses_default_environment :
  let st := snd (get_default_environment demo_host empty_state) in
  let r := accesses demo_host 0 [ReadSysPath; ReadVersion; ReadSysPath] st in
  fst r = [ObsSysPath (Ok ["/usr/lib/python36.zip"; "/usr/lib/python3.6"]);
           ObsVersion (Ok (VersionInfo 3 6 5));
           ObsSysPath (Ok ["/usr/lib/python36.zip"; "/usr/lib/python3.6"])] /\
  trace (snd r) = [version_event "/usr/bin/python3.6"; EvWorkerSysPath "/usr/bin/python3.6"].
Proof. cbv zeta. split; reflexivity. Qed.

(** * Further properties of the module *)

(** ** Paths *)

Lemma append_nil_l (s : string) : "" +:+ s = s.
Proof. reflexivity. Qed.

Lemma append_cons (c : ascii) (a s : string) : String c a +:+ s = String c (a +:+ s).
Proof. reflexivity. Qed.

Lemma append_assoc (a c d : string) : (a +:+ c) +:+ d = a +:+ (c +:+ d).
Proof.
  induction a as [| x a IH]; [reflexivity |].
  rewrite !append_cons, IH. reflexivity.
Qed.

Lemma starts_with_trans (a c s : string) :
  starts_with a c -> starts_with c s -> starts_with a s.
Proof.
  intros [t ->] [u ->]. exists (t +:+ u). apply append_assoc.
Qed.

Lemma head_of_starts (p : string) : starts_with (head_of p) p.
Proof.
  induction p as [| c p IH]; [exists ""; reflexivity |].
  cbn [head_of]. destruct (has_sep (String c p)).
  - destruct IH as [t Ht]. exists t. rewrite append_cons, <- Ht. reflexivity.
  - exists (String c p). reflexivity.
Qed.

Lemma rstrip_sep_starts (s : string) : starts_with (rstrip_sep s) s.
Proof.
  induction s as [| c s IH]; [exists ""; reflexivity |].
  cbn [rstrip_sep]. destruct (is_sep c && is_empty (rstrip_sep s)).
  - exists (String c s). reflexivity.
  - destruct IH as [t Ht]. exists t. rewrite append_cons, <- Ht. reflexivity.
Qed.

(** A directory name is the beginning of the path it was taken from. *)
Lemma dirname_starts (p : string) : starts_with (dirname p) p.
Proof.
  unfold dirname.
  destruct (negb (is_empty (head_of p)) && negb (all_sep (head_of p)));
    [| apply head_of_starts].
  eapply starts_with_trans; [apply rstrip_sep_starts | apply head_of_starts].
Qed.

Lemma head_of_no_sep (s : string) : has_sep s = false -> head_of s = "".
Proof.
  intros H. destruct s as [| c s]; [reflexivity |]. cbn [head_of]. rewrite H.
  reflexivity.
Qed.

Lemma has_sep_app_sep (d t : string) : has_sep (d +:+ String "/" t) = true.
Proof.
  induction d as [| c d IH]; [reflexivity |].
  rewrite append_cons. cbn [has_sep]. rewrite IH. apply orb_true_r.
Qed.

Lemma head_of_app_sep (d name : string) :
  has_sep name = false -> head_of (d +:+ String "/" name) = d +:+ "/".
Proof.
  intros Hname. induction d as [| c d IH].
  - rewrite !append_nil_l.
    change (head_of (String "/" name)) with (String "/" (head_of name)).
    rewrite (head_of_no_sep name Hname). reflexivity.
  - rewrite !append_cons. cbn [head_of has_sep].
    rewrite has_sep_app_sep, orb_true_r, IH. reflexivity.
Qed.

Lemma all_sep_app (d t : string) :
  d <> "" -> endswith_sep d = false -> all_sep (d +:+ t) = false.
Proof.
  induction d as [| c d IH]; intros Hne Hend; [congruence |].
  rewrite append_cons. cbn [all_sep].
  destruct d as [| c' d].
  - cbn [endswith_sep] in Hend. rewrite Hend. reflexivity.
  - rewrite IH; [apply andb_false_r | discriminate | exact Hend].
Qed.

Lemma rstrip_sep_app_sep (d : string) :
  d <> "" -> endswith_sep d = false -> rstrip_sep (d +:+ "/") = d.
Proof.
  induction d as [| c d IH]; intros Hne Hend; [congruence |].
  rewrite append_cons. cbn [rstrip_sep].
  destruct d as [| c' d].
  - cbn [endswith_sep] in Hend. rewrite append_nil_l.
    change (rstrip_sep "/") with "". cbn [is_empty]. rewrite Hend. reflexivity.
  - rewrite IH; [| discriminate | exact Hend].
    cbn [is_empty]. rewrite andb_false_r. reflexivity.
Qed.

(** [dirname(join(d, name)) == d] for a directory that is not empty and does
    not end with a separator, and a name without separator. *)
Lemma dirname_join (d name : string) :
  d <> "" -> endswith_sep d = false -> has_sep name = false ->
  dirname (d +:+ "/" +:+ name) = d.
Proof.
  intros Hne Hend Hname. unfold dirname.
  change (d +:+ "/" +:+ name) with (d +:+ String "/" name).
  rewrite (head_of_app_sep d name Hname).
  rewrite (all_sep_app d "/" Hne Hend).
  assert (is_empty (d +:+ "/") = false) as ->.
  { destruct d; [congruence | reflexivity]. }
  cbn [negb andb].
  apply (rstrip_sep_app_sep d Hne Hend).
Qed.

Lemma endswith_sep_app (a : string) (c : ascii) (t : string) :
  endswith_sep (a +:+ String c t) = endswith_sep (String c t).
Proof.
  induction a as [| x a IH]; [reflexivity |].
  rewrite append_cons.
  destruct a as [| y a]; [reflexivity |].
  rewrite append_cons in *. exact IH.
Qed.

Lemma path_join_plain (a p : string) :
  a <> "" -> endswith_sep a = false -> startswith_sep p = false ->
  path_join a p = a +:+ "/" +:+ p.
Proof.
  intros Hne Hend Hp. unfold path_join. rewrite Hp, Hend.
  destruct a; [congruence | reflexivity].
Qed.

(** X9. For a directory path that is not empty and does not end with a
    separator, the directory two levels above the interpreter that
    [_get_executable_path] returns is the directory itself: the base path
    [get_python_environment] computes from an executable agrees with the one
    [create_environment] is given. *)
Theorem base_path_of_bin_python (path : string) :
  path <> "" -> endswith_sep path = false ->
  dirname (dirname (bin_python path)) = path.
Proof.
  intros Hne Hend. unfold bin_python.
  rewrite (path_join_plain path "bin" Hne Hend eq_refl).
  assert (path +:+ "/" +:+ "bin" <> "") as Hne'.
  { destruct path; [congruence | discriminate]. }
  assert (endswith_sep (path +:+ "/" +:+ "bin") = false) as Hend'.
  { change (path +:+ "/" +:+ "bin") with (path +:+ String "/" "bin").
    rewrite endswith_sep_app. reflexivity. }
  rewrite (path_join_plain _ "python" Hne' Hend' eq_refl).
  rewrite (dirname_join _ "python" Hne' Hend' eq_refl).
  apply (dirname_join path "bin" Hne Hend eq_refl).
Qed.

(** The virtualenv of the concrete host. *)
Lemma base_path_of_bin_python_witness :
  dirname (dirname (bin_python "/home/u/venv")) = "/home/u/venv".
Proof.
  apply (base_path_of_bin_python "/home/u/venv"); [discriminate | reflexivity].
Defined.

(** A trailing separator is not recovered. *)
Example base_path_trailing_sep : dirname (dirname (bin_python "venv/")) = "venv".
Proof. reflexivity. Qed.

(** ** The two named constructors *)

(** X1. [create_environment(path)] checks the directory before anything else.
    If one of the two files is missing it raises [InvalidPythonEnvironment]
    with its message and leaves the state as it was: no process is spawned
    and no instance is allocated.  If both are there it probes
    [path/bin/python] once, and returns a new instance holding [path], the
    interpreter and the probed version exactly when the probe gives one. *)
Theorem create_environment_outcome (host : Host) (path : string) (st : State) :
  match create_environment host path st with
  | (Ok l, st') =>
      dir_ok host path = true /\
      l = length (heap st) /\
      trace st' = trace st ++ [version_event (bin_python path)] /\
      exists v, probe host (bin_python path) = Ok v /\
                points_to st' l (env_obj path (bin_python path) (Some v))
  | (Raise e, st') =>
      (dir_ok host path = false /\ st' = st /\
       e = InvalidPythonEnvironment
             (Some "One of bin/activate and bin/python is missing."))
      \/
      (dir_ok host path = true /\
       trace st' = trace st ++ [version_event (bin_python path)] /\
       probe host (bin_python path) = Raise e /\
       e = InvalidPythonEnvironment None)
  end.
Proof.
  rewrite create_environment_run. fold (dir_ok host path).
  destruct (dir_ok host path); [| left; auto].
  rewrite Environment_run.
  destruct (probe host (bin_python path)) as [v | e] eqn:Hprobe.
  - split; [reflexivity |]. split; [reflexivity |]. split; [reflexivity |].
    exists v. split; [reflexivity | apply lookup_snoc].
  - right. split; [reflexivity |]. split; [reflexivity |]. split; [reflexivity |].
    eapply probe_raise, Hprobe.
Qed.

(** X2. [get_python_environment(name)]: when the name is not found on the
    search path it raises [InvalidPythonEnvironment] and leaves the state as
    it was.  When it is found, the instance it builds has the resolved
    executable and, as base path, the directory two levels above it, which is
    always a beginning of the executable's path; the call returns exactly
    when the probe of the executable gives a version. *)
Theorem get_python_environment_outcome (host : Host) (python_name : string) (st : State) :
  match find_executable host python_name with
  | None =>
      get_python_environment host python_name st
      = (Raise (InvalidPythonEnvironment (Some "This executable doesn't exist.")), st)
  | Some exe =>
      starts_with (dirname (dirname exe)) exe /\
      trace (snd (get_python_environment host python_name st))
      = trace st ++ [version_event exe] /\
      match fst (get_python_environment host python_name st) with
      | Ok l =>
          exists v, probe host exe = Ok v /\
                    points_to (snd (get_python_environment host python_name st)) l
                      (env_obj (dirname (dirname exe)) exe (Some v))
      | Raise e => probe host exe = Raise e
      end
  end.
Proof.
  rewrite get_python_environment_run.
  destruct (find_executable host python_name) as [exe |]; [| reflexivity].
  split.
  { eapply starts_with_trans; apply dirname_starts. }
  rewrite Environment_run.
  destruct (probe host exe) as [v | e] eqn:Hprobe; cbn [fst snd trace].
  - split; [reflexivity |]. exists v. split; [reflexivity | apply lookup_snoc].
  - split; reflexivity.
Qed.

Example get_python_environment_bare :
  dirname (dirname "python3.5") = "" /\ dirname (dirname "/python3.5") = "/".
Proof. split; reflexivity. Qed.

(** ** More on [find_virtualenvs] *)

(** One turn of the loop. *)
Lemma find_virtualenvs_loop_cons (host : Host) (path : string) (rest : list string)
    (st : State) :
  find_virtualenvs_loop host (path :: rest) st =
  if dir_ok host path then
    match probe host (bin_python path) with
    | Ok v =>
        push (length (heap st))
          (find_virtualenvs_loop host rest
             {| heap := heap st ++ [env_obj path (bin_python path) (Some v)];
                trace := trace st ++ [version_event (bin_python path)] |})
    | Raise _ =>
        find_virtualenvs_loop host rest
          {| heap := heap st ++ [env_obj path (bin_python path) None];
             trace := trace st ++ [version_event (bin_python path)] |}
    end
  else find_virtualenvs_loop host rest st.
Proof.
  cbn [find_virtualenvs_loop].
  change (bind (_get_executable_path host path) (fun executable => Environment host path executable))
    with (create_environment host path).
  rewrite create_environment_run. fold (dir_ok host path).
  destruct (dir_ok host path); [| reflexivity].
  rewrite Environment_run.
  destruct (probe host (bin_python path)) as [v | e] eqn:Hprobe; [reflexivity |].
  rewrite (probe_raise _ _ _ Hprobe). reflexivity.
Qed.

Lemma find_virtualenvs_loop_trace (host : Host) (paths : list string) :
  forall st : State,
    trace (snd (find_virtualenvs_loop host paths st))
    = trace st ++ map version_event (probed_interpreters host paths).
Proof.
  induction paths as [| path rest IH]; intros st.
  - cbn. rewrite app_nil_r. reflexivity.
  - rewrite find_virtualenvs_loop_cons. cbn [probed_interpreters].
    destruct (dir_ok host path); [| apply IH].
    destruct (probe host (bin_python path)) as [v | e];
      [destruct (yielded_push (length (heap st))
                   (find_virtualenvs_loop host rest
                      {| heap := heap st ++ [env_obj path (bin_python path) (Some v)];
                         trace := trace st ++ [version_event (bin_python path)] |}))
         as (_ & _ & ->) |];
      rewrite IH; cbn [trace map]; rewrite <- app_assoc; reflexivity.
Qed.

(** X3. [find_virtualenvs] spawns one version probe for each directory that
    has both [bin/activate] and [bin/python], in input order, and none for a
    directory that lacks one of them; nothing is remembered between calls, so
    a second enumeration spawns the same probes again. *)
Theorem find_virtualenvs_spawns (host : Host) (paths : list string) (st : State) :
  let r1 := find_virtualenvs host (Some paths) st in
  let r2 := find_virtualenvs host (Some paths) (snd r1) in
  trace (snd r1) = trace st ++ map version_event (probed_interpreters host paths) /\
  trace (snd r2) = trace (snd r1) ++ map version_event (probed_interpreters host paths).
Proof.
  cbv zeta. unfold find_virtualenvs. split; apply find_virtualenvs_loop_trace.
Qed.

Lemma find_virtualenvs_loop_fresh (host : Host) (paths : list string) :
  forall st : State,
    (exists ext, heap (snd (find_virtualenvs_loop host paths st)) = heap st ++ ext) /\
    Forall (fun l => (length (heap st) <= l
                      < length (heap (snd (find_virtualenvs_loop host paths st))))%nat)
           (yielded (fst (find_virtualenvs_loop host paths st))) /\
    NoDup (yielded (fst (find_virtualenvs_loop host paths st))).
Proof.
  induction paths as [| path rest IH]; intros st.
  - cbn. split; [exists []; rewrite app_nil_r; reflexivity |].
    split; constructor.
  - rewrite find_virtualenvs_loop_cons.
    destruct (dir_ok host path); [| apply IH].
    destruct (probe host (bin_python path)) as [v | e].
    + set (st1 := {| heap := heap st ++ [env_obj path (bin_python path) (Some v)];
                     trace := trace st ++ [version_event (bin_python path)] |}).
      destruct (IH st1) as ([ext Hext] & Hall & Hnd).
      destruct (yielded_push (length (heap st)) (find_virtualenvs_loop host rest st1))
        as (-> & _ & ->).
      assert (length (heap st1) = S (length (heap st))) as Hlen.
      { subst st1. cbn [heap]. rewrite length_app. simpl. lia. }
      split; [eapply (heap_extends_snoc st st1); [reflexivity | exact Hext] |].
      split.
      * constructor.
        -- rewrite Hext, length_app, Hlen. lia.
        -- eapply Forall_impl; [exact Hall |]. cbn beta. intros l Hl. lia.
      * constructor; [| exact Hnd].
        intros Hin. rewrite Forall_forall in Hall. specialize (Hall _ Hin). lia.
    + set (st1 := {| heap := heap st ++ [env_obj path (bin_python path) None];
                     trace := trace st ++ [version_event (bin_python path)] |}).
      destruct (IH st1) as ([ext Hext] & Hall & Hnd).
      assert (length (heap st1) = S (length (heap st))) as Hlen.
      { subst st1. cbn [heap]. rewrite length_app. simpl. lia. }
      split; [eapply (heap_extends_snoc st st1); [reflexivity | exact Hext] |].
      split; [| exact Hnd].
      eapply Forall_impl; [exact Hall |]. cbn beta. intros l Hl. lia.
Qed.

(** X5. The instances [find_virtualenvs] yields are new and pairwise
    distinct, also when a directory is listed twice: no yielded reference
    denotes an instance that existed before the call, no two are the same
    instance, and every instance that existed before is left as it was. *)
Theorem find_virtualenvs_fresh (host : Host) (paths : list string) (st : State) :
  let r := find_virtualenvs host (Some paths) st in
  NoDup (yielded (fst r)) /\
  Forall (fun l => (length (heap st) <= l < length (heap (snd r)))%nat)
         (yielded (fst r)) /\
  (forall l o, points_to st l o -> points_to (snd r) l o).
Proof.
  cbv zeta. unfold find_virtualenvs.
  destruct (find_virtualenvs_loop_fresh host paths st) as ([ext Hext] & Hall & Hnd).
  split; [exact Hnd |]. split; [exact Hall |].
  intros l o Hlo. unfold points_to in *. rewrite Hext.
  apply lookup_app_l_Some, Hlo.
Qed.

(** The same directory twice gives two instances. *)
Example find_virtualenvs_twice :
  yielded (fst (find_virtualenvs demo_host
                  (Some ["/home/u/venv"; "/home/u/venv"]) empty_state))
  = [0%nat; 1%nat].
Proof. reflexivity. Qed.

Lemma find_virtualenvs_loop_app (host : Host) (ps1 ps2 : list string) :
  forall st : State,
    find_virtualenvs_loop host (ps1 ++ ps2) st =
    ({| yielded := yielded (fst (find_virtualenvs_loop host ps1 st))
                   ++ yielded (fst (find_virtualenvs_loop host ps2
                                      (snd (find_virtualenvs_loop host ps1 st))));
        raised := None |},
     snd (find_virtualenvs_loop host ps2 (snd (find_virtualenvs_loop host ps1 st)))).
Proof.
  induction ps1 as [| path rest IH]; intros st.
  - cbn [app find_virtualenvs_loop fst snd yielded].
    destruct (find_virtualenvs_loop_spec host ps2 st) as (Hraised & _).
    destruct (find_virtualenvs_loop host ps2 st) as [[ys r] st']. cbn in *.
    rewrite Hraised. reflexivity.
  - rewrite <- app_comm_cons, !find_virtualenvs_loop_cons.
    destruct (dir_ok host path); [| apply IH].
    destruct (probe host (bin_python path)) as [v | e]; [| apply IH].
    rewrite IH. reflexivity.
Qed.

(** X4. Enumerating a concatenation of two lists of directories is
    enumerating the first list and then, from the state this leaves, the
    second: the instances of the second follow those of the first, and the
    whole never raises. *)
Theorem find_virtualenvs_app (host : Host) (ps1 ps2 : list string) (st : State) :
  let r1 := find_virtualenvs host (Some ps1) st in
  let r2 := find_virtualenvs host (Some ps2) (snd r1) in
  find_virtualenvs host (Some (ps1 ++ ps2)) st
  = ({| yielded := yielded (fst r1) ++ yielded (fst r2); raised := None |}, snd r2).
Proof.
  cbv zeta. unfold find_virtualenvs. apply find_virtualenvs_loop_app.
Qed.

(** ** More on [find_python_environments] *)

Lemma enumerate_tags_raised (host : Host) (cur : string) (tags : list string) (x : Exn) :
  enum_raised (enumerate_tags host cur tags) = Some x
  <-> In cur tags /\ probe host (sys_executable host) = Raise x.
Proof.
  induction tags as [| tag rest IH]; cbn [enumerate_tags enum_raised In].
  - split; [discriminate | intros [[] _]].
  - destruct (String.eqb_spec tag cur) as [-> | Hne].
    + destruct (probe host (sys_executable host)) as [v | e] eqn:Hprobe.
      * cbn [enum_cons enum_raised]. rewrite IH.
        split; [intros [_ H]; discriminate | intros [_ H]; discriminate].
      * cbn [enum_raised]. split.
        -- intros H. injection H as <-. auto.
        -- intros [_ H]. congruence.
    + assert (enum_raised
                (match find_executable host ("python" +:+ tag) with
                 | Some exe =>
                     match probe host exe with
                     | Ok v =>
                         enum_cons (Some (env_obj (dirname (dirname exe)) exe (Some v)))
                           [version_event exe] (enumerate_tags host cur rest)
                     | Raise _ =>
                         enum_cons None [version_event exe] (enumerate_tags host cur rest)
                     end
                 | None => enumerate_tags host cur rest
                 end)
              = enum_raised (enumerate_tags host cur rest)) as ->.
      { destruct (find_executable host ("python" +:+ tag)) as [exe |]; [| reflexivity].
        destruct (probe host exe); reflexivity. }
      rewrite IH. intuition congruence.
Qed.

Lemma enumerate_tags_stops (host : Host) (cur : string) (tags : list string) (x : Exn) :
  enum_raised (enumerate_tags host cur tags) = Some x ->
  exists evs, enum_spawned (enumerate_tags host cur tags)
              = evs ++ [version_event (sys_executable host)].
Proof.
  induction tags as [| tag rest IH]; cbn [enumerate_tags enum_raised]; [discriminate |].
  destruct (String.eqb tag cur).
  - destruct (probe host (sys_executable host)) as [v | e].
    + cbn [enum_cons enum_raised enum_spawned]. intros H.
      destruct (IH H) as [evs ->].
      exists (version_event (sys_executable host) :: evs). reflexivity.
    + intros _. exists []. reflexivity.
  - destruct (find_executable host ("python" +:+ tag)) as [exe |]; [| exact IH].
    destruct (probe host exe); cbn [enum_cons enum_raised enum_spawned]; intros H;
      destruct (IH H) as [evs ->]; exists (version_event exe :: evs); reflexivity.
Qed.

(** X6. [find_python_environments] ends with an exception exactly when the
    version of the running interpreter is one of the supported tags and the
    probe of [sys.executable] fails: the default environment is built outside
    the [try].  The exception is then [InvalidPythonEnvironment], the failed
    probe is the last command spawned, and the tags after it are not looked
    at.  On a host whose version is not a supported tag the enumeration never
    raises. *)
Theorem find_python_environments_raises_iff (host : Host) (st : State) (x : Exn) :
  (raised (fst (find_python_environments host st)) = Some x <->
     In (current_tag host) _SUPPORTED_PYTHONS /\
     probe host (sys_executable host) = Raise x) /\
  (raised (fst (find_python_environments host st)) = Some x ->
     x = InvalidPythonEnvironment None /\
     exists evs, trace (snd (find_python_environments host st))
                 = trace st ++ evs ++ [version_event (sys_executable host)]).
Proof.
  destruct (find_python_environments_drained host st) as (Hraised & _ & Htrace).
  rewrite Hraised, Htrace. split; [apply enumerate_tags_raised |].
  intros H. split.
  - apply enumerate_tags_raised in H as [_ H]. eapply probe_raise, H.
  - destruct (enumerate_tags_stops _ _ _ _ H) as [evs ->]. exists evs. reflexivity.
Qed.

(** The interpreter of the host is a broken Python 3.5: the Python 2.7 found
    before it is yielded, then the enumeration raises; 3.6 is not reached. *)
Example find_python_environments_broken :
  let r := find_python_environments broken_host empty_state in
  yielded (fst r) = [0%nat] /\
  raised (fst r) = Some (InvalidPythonEnvironment None) /\
  trace (snd r) = [version_event "/usr/bin/python2.7";
                   version_event "/opt/py35/bin/python3.5"].
Proof. cbv zeta. repeat split. Qed.

(** ** What a successful probe says about the output *)

Lemma re_match_lit_inv (c : byte) (p : list re_item) (s : bytes) (gs : list bytes) :
  re_match (RLit c :: p) s = Some gs ->
  exists s', s = c :: s' /\ re_match p s' = Some gs.
Proof.
  cbn [re_match]. destruct s as [| x s]; [discriminate |].
  destruct (Byte.eqb x c) eqn:Hx; [| discriminate].
  apply Byte.byte_dec_bl in Hx as ->. eauto.
Qed.

Lemma re_match_lits_inv (l : bytes) (p : list re_item) :
  forall (s : bytes) (gs : list bytes),
    re_match (map RLit l ++ p) s = Some gs ->
    exists s', s = l ++ s' /\ re_match p s' = Some gs.
Proof.
  induction l as [| c l IH]; intros s gs H.
  - exists s. split; [reflexivity | exact H].
  - change (map RLit (c :: l) ++ p) with (RLit c :: (map RLit l ++ p)) in H.
    apply re_match_lit_inv in H as (s1 & -> & H).
    apply IH in H as (s' & -> & H). exists s'. split; [reflexivity | exact H].
Qed.

Lemma re_match_digits_inv (p : list re_item) (s : bytes) (gs : list bytes) :
  re_match (RDigits :: p) s = Some gs ->
  exists j gs', (1 <= j <= digit_run s)%nat /\ gs = take j s :: gs' /\
                re_match p (drop j s) = Some gs'.
Proof.
  cbn [re_match]. intros H.
  apply first_success_some in H as (j & Hj & H).
  destruct (re_match p (drop j s)) as [gs' |] eqn:Hrec; [| discriminate].
  cbn [option_map] in H. injection H as <-.
  exists j, gs'. split; [exact Hj |]. split; [reflexivity | exact Hrec].
Qed.

Lemma no_leading_digit_drop_run (s : bytes) :
  no_leading_digit (drop (digit_run s) s) = true.
Proof.
  induction s as [| c s IH]; [reflexivity |].
  cbn [digit_run]. destruct (is_digit c) eqn:Hc; [exact IH |].
  cbn. rewrite Hc. reflexivity.
Qed.

(** The last group takes every digit there is. *)
Lemma re_match_last_digits (s : bytes) (gs : list bytes) :
  re_match [RDigits] s = Some gs ->
  gs = [take (digit_run s) s] /\ digit_run s <> O.
Proof.
  cbn [re_match]. destruct (digit_run s) as [| n] eqn:Hrun; [discriminate |].
  cbn. intros H. injection H as <-. split; [reflexivity | discriminate].
Qed.

Lemma take_number (s : bytes) (j : nat) :
  (1 <= j <= digit_run s)%nat -> is_number (take j s).
Proof.
  intros Hj. destruct (digit_run_take s j) as [Hall Hlen]; [lia |].
  split; [| exact Hall]. intros Hnil. rewrite Hnil in Hlen. simpl in Hlen. lia.
Qed.

(** X7. When [_get_version] returns a triple, the child was started and
    exited with code 0, and its combined output reads [Python ], a number, a
    dot, a number, a dot, a number, and then something that does not begin
    with a digit; the triple is made of these three numbers, read in base
    ten (leading zeros are accepted). *)
Theorem get_version_sound (host : Host) (executable : string) (st : State)
    (v : _VersionInfo) :
  fst (_get_version host executable st) = Ok v ->
  exists p d1 d2 d3 rest,
    popen host [executable; "--version"] = Some p /\ retcode p = 0 /\
    stdout p ++ stderr p = b "Python " ++ d1 ++ [x2e] ++ d2 ++ [x2e] ++ d3 ++ rest /\
    is_number d1 /\ is_number d2 /\ is_number d3 /\
    no_leading_digit rest = true /\
    v = VersionInfo (int_of_bytes d1) (int_of_bytes d2) (int_of_bytes d3).
Proof.
  rewrite get_version_run. cbn [fst]. rewrite probe_unfold.
  destruct (popen host [executable; "--version"]) as [p |]; [| discriminate].
  destruct (Z.eqb_spec (retcode p) 0) as [Hret | Hret]; cbn [negb]; [| discriminate].
  destruct (re_match version_pattern (stdout p ++ stderr p)) as [gs |] eqn:Hm;
    [| discriminate].
  intros Hv. exists p.
  unfold version_pattern in Hm.
  apply re_match_lits_inv in Hm as (s1 & Hout & Hm).
  apply re_match_digits_inv in Hm as (j1 & gs1 & Hj1 & -> & Hm).
  apply re_match_lit_inv in Hm as (s2 & Hs2 & Hm).
  apply re_match_digits_inv in Hm as (j2 & gs2 & Hj2 & -> & Hm).
  apply re_match_lit_inv in Hm as (s3 & Hs3 & Hm).
  apply re_match_last_digits in Hm as [-> Hrun].
  injection Hv as <-.
  exists (take j1 s1), (take j2 s2), (take (digit_run s3) s3), (drop (digit_run s3) s3).
  split; [reflexivity |]. split; [exact Hret |].
  split.
  { rewrite Hout. f_equal.
    rewrite <- (take_drop j1 s1) at 1. f_equal. rewrite Hs2. cbn [app]. f_equal.
    rewrite <- (take_drop j2 s2) at 1. f_equal. rewrite Hs3. cbn [app]. f_equal.
    symmetry. apply take_drop. }
  split; [apply take_number, Hj1 |].
  split; [apply take_number, Hj2 |].
  split; [apply take_number; lia |].
  split; [apply no_leading_digit_drop_run | reflexivity].
Qed.

Lemma get_version_sound_witness :
  exists p d1 d2 d3 rest,
    popen demo_host ["/usr/bin/python3.6"; "--version"] = Some p /\ retcode p = 0 /\
    stdout p ++ stderr p = b "Python " ++ d1 ++ [x2e] ++ d2 ++ [x2e] ++ d3 ++ rest /\
    is_number d1 /\ is_number d2 /\ is_number d3 /\
    no_leading_digit rest = true /\
    VersionInfo 3 6 5
    = VersionInfo (int_of_bytes d1) (int_of_bytes d2) (int_of_bytes d3).
Proof.
  apply (get_version_sound demo_host "/usr/bin/python3.6" empty_state (VersionInfo 3 6 5)).
  reflexivity.
Defined.

(** Leading zeros are read as the number they pad. *)
Example re_match_leading_zeros :
  option_map (map int_of_bytes) (re_match version_pattern (b "Python 03.06.005"))
  = Some [3; 6; 5].
Proof. reflexivity. Qed.

(** ** Version strings *)

Lemma list_byte_of_string_app (s t : string) :
  list_byte_of_string (s +:+ t) = list_byte_of_string s ++ list_byte_of_string t.
Proof.
  unfold list_byte_of_string.
  induction s as [| c s IH]; [reflexivity |].
  rewrite append_cons. cbn [list_ascii_of_string map app]. f_equal. exact IH.
Qed.

Lemma str_of_int_bytes (n : Z) :
  0 <= n -> list_byte_of_string (str_of_int n) = dec_bytes n.
Proof.
  intros Hn. unfold str_of_int.
  destruct (Z.ltb_spec n 0) as [Hneg | _]; [lia |].
  apply list_byte_of_string_of_list_byte.
Qed.

Lemma version_string_bytes (mj mn : Z) :
  0 <= mj -> 0 <= mn ->
  list_byte_of_string (version_string mj mn) = dec_bytes mj ++ [x2e] ++ dec_bytes mn.
Proof.
  intros Hmj Hmn. unfold version_string.
  rewrite !list_byte_of_string_app, !str_of_int_bytes by assumption. reflexivity.
Qed.

(** Two digit strings each followed by a dot: the dots are at the same
    place. *)
Lemma split_at_dot (l1 : bytes) : forall (l2 r1 r2 : bytes),
  forallb is_digit l1 = true -> forallb is_digit l2 = true ->
  l1 ++ x2e :: r1 = l2 ++ x2e :: r2 -> l1 = l2 /\ r1 = r2.
Proof.
  induction l1 as [| c l1 IH]; intros l2 r1 r2 H1 H2 Heq.
  - destruct l2 as [| y l2].
    + injection Heq as ->. auto.
    + cbn [app] in Heq. injection Heq as <- _.
      cbn [forallb] in H2. discriminate.
  - destruct l2 as [| y l2].
    + cbn [app] in Heq. injection Heq as -> _.
      cbn [forallb] in H1. discriminate.
    + cbn [app forallb] in *. injection Heq as -> Heq.
      apply andb_true_iff in H1 as [_ H1]. apply andb_true_iff in H2 as [_ H2].
      destruct (IH l2 r1 r2 H1 H2 Heq) as [-> ->]. auto.
Qed.

Lemma dec_bytes_inj (n m : Z) : 0 <= n -> 0 <= m -> dec_bytes n = dec_bytes m -> n = m.
Proof.
  intros Hn Hm H. rewrite <- (int_of_dec_bytes n Hn), <- (int_of_dec_bytes m Hm), H.
  reflexivity.
Qed.

Lemma version_string_inj (a c a' c' : Z) :
  0 <= a -> 0 <= c -> 0 <= a' -> 0 <= c' ->
  version_string a c = version_string a' c' -> a = a' /\ c = c'.
Proof.
  intros Ha Hc Ha' Hc' H.
  apply (f_equal list_byte_of_string) in H.
  rewrite !version_string_bytes in H by assumption.
  apply split_at_dot in H as [H1 H2]; try apply dec_bytes_digits.
  split; apply dec_bytes_inj; assumption.
Qed.

(** X8. The test [version_string == current_version] of
    [find_python_environments] holds exactly when the tag and the running
    interpreter have the same major and the same minor number: the rendering
    ['%s.%s' % (major, minor)] of two non-negative integers determines both,
    so that 3.10 is taken neither for 3.1 nor for 31.0. *)
Theorem version_tag_matches_exactly (host : Host) (mj mn : Z) :
  0 <= mj -> 0 <= mn ->
  0 <= major (sys_version_info host) -> 0 <= minor (sys_version_info host) ->
  (String.eqb (version_string mj mn) (current_tag host) = true
   <-> mj = major (sys_version_info host) /\ mn = minor (sys_version_info host)).
Proof.
  intros Hmj Hmn Hmajor Hminor. rewrite String.eqb_eq.
  change (current_tag host)
    with (version_string (major (sys_version_info host)) (minor (sys_version_info host))).
  split.
  - apply version_string_inj; assumption.
  - intros [-> ->]. reflexivity.
Qed.

Lemma version_tag_matches_exactly_witness :
  String.eqb (version_string 3 6) (current_tag demo_host) = true
  <-> 3 = major (sys_version_info demo_host) /\ 6 = minor (sys_version_info demo_host).
Proof.
  apply (version_tag_matches_exactly demo_host 3 6); cbn; lia.
Defined.

(** The supported tags are renderings of this form. *)
Example supported_pythons_are_version_strings :
  _SUPPORTED_PYTHONS
  = [version_string 2 7; version_string 3 3; version_string 3 4;
     version_string 3 5; version_string 3 6].
Proof. reflexivity. Qed.

Example version_string_3_10 :
  version_string 3 10 = "3.10" /\ version_string 31 0 = "31.0".
Proof. split; reflexivity. Qed.

(** ** [repr] of an environment *)

Lemma append_inv_head (a s t : string) : a +:+ s = a +:+ t -> s = t.
Proof.
  induction a as [| c a IH]; [auto |].
  rewrite !append_cons. intros H. injection H as H. apply IH, H.
Qed.

Lemma append_inv_last (c : ascii) (s : string) : forall t : string,
  s +:+ String c "" = t +:+ String c "" -> s = t.
Proof.
  induction s as [| x s IH]; intros t H.
  - destruct t as [| y t]; [reflexivity |].
    rewrite append_nil_l, append_cons in H. injection H as _ H.
    destruct t; discriminate.
  - destruct t as [| y t].
    + rewrite append_nil_l, append_cons in H. injection H as _ H.
      destruct s; discriminate.
    + rewrite !append_cons in H. injection H as -> H. f_equal. apply IH, H.
Qed.

(** X10. The [repr] of an instance built by [Environment(path, executable)]
    is [<Environment: path>], whatever the executable and the version, and
    computing it reads the instance only.  Two such texts are equal exactly
    when the base paths are: [repr] tells environments apart by base path and
    by nothing else. *)
Theorem repr_shows_base_path (host : Host) (path executable : string) (st : State) :
  match Environment host path executable st with
  | (Ok l, st') =>
      Environment__repr__ l st' = (Ok ("<Environment: " +:+ path +:+ ">"), st')
  | (Raise e, _) => probe host executable = Raise e
  end /\
  (forall path', "<Environment: " +:+ path +:+ ">" = "<Environment: " +:+ path' +:+ ">"
                 <-> path = path').
Proof.
  split.
  - rewrite Environment_run.
    destruct (probe host executable) as [v | e]; [| reflexivity].
    unfold Environment__repr__, bind. erewrite getattr_snoc by reflexivity.
    reflexivity.
  - intros path'. split; [| intros ->; reflexivity].
    intros H. apply append_inv_head in H. apply append_inv_last in H. exact H.
Qed.

Example repr_default_environment :
  Environment__repr__ 0 (snd (get_default_environment demo_host empty_state))
  = (Ok "<Environment: /usr>", snd (get_default_environment demo_host empty_state)).
Proof. reflexivity. Qed.
